(** * Cloak front end: the job orchestration layer

    A shallow embedding of the client-side code that drives a redaction
    job: the transport client ([frontend/src/lib/api.ts]), the query hooks
    ([frontend/src/hooks/useApi.ts]) and the components [FileUpload],
    [NaturalLanguageInput], [ProcessingStatus] and
    [EntityDetectionPreview].

    JavaScript values are modelled as follows.  A [string] is a sequence of
    code units (restricted to the range below 256); [undefined] and [null]
    are [None]; a [number] that holds a byte count, a status code or a
    delay is a [Z]; an object literal is a record; a rejected promise is
    the [inr] side of a [sum]. *)

From Stdlib Require Import ZArith List String Ascii Bool Lia DecimalString.
Import ListNotations.

Local Open Scope string_scope.
Local Open Scope Z_scope.

(** ** JavaScript primitives used by the sources *)

Module JS.

(** Truthiness of a string: every string but the empty one. *)
Definition truthy (s : string) : bool := negb (s =? "")%string.

(** Truthiness of a possibly undefined string. *)
Definition truthy_opt (o : option string) : bool :=
  match o with
  | Some s => truthy s
  | None => false
  end.

(** [a || b] where [a] may be undefined and [b] is a string. *)
Definition or_string (a : option string) (b : string) : string :=
  match a with
  | Some s => if truthy s then s else b
  | None => b
  end.

(** [a || undefined] on a string. *)
Definition or_undefined (a : string) : option string :=
  if truthy a then Some a else None.

(** [a || b] where [a] is a possibly undefined number: 0 is falsy. *)
Definition or_number (a : option Z) (b : Z) : Z :=
  match a with
  | Some n => if n =? 0 then b else n
  | None => b
  end.

(** [Boolean.prototype.toString]. *)
Definition bool_toString (b : bool) : string :=
  if b then "true" else "false".

(** White space as [String.prototype.trim] sees it, among the code units
    below 256: TAB, LF, VT, FF, CR, SPACE and NBSP. *)
Definition is_white (c : ascii) : bool :=
  let n := nat_of_ascii c in
  ((9 <=? n) && (n <=? 13) || (n =? 32) || (n =? 160))%nat.

Fixpoint trimStart (s : string) : string :=
  match s with
  | EmptyString => EmptyString
  | String c r => if is_white c then trimStart r else s
  end.

Fixpoint trimEnd (s : string) : string :=
  match s with
  | EmptyString => EmptyString
  | String c r =>
      let r' := trimEnd r in
      if is_white c && (r' =? "")%string then EmptyString else String c r'
  end.

Definition trim (s : string) : string := trimEnd (trimStart s).

(** A string made of white space only (the empty string included). *)
Fixpoint all_white (s : string) : bool :=
  match s with
  | EmptyString => true
  | String c r => is_white c && all_white r
  end.

(** [String.prototype.toLowerCase] on the code units below 256: the
    letters A to Z and the accented capitals of Latin-1 (all of 192 to 222
    but the multiplication sign 215) move up by 32. *)
Definition lower_unit (c : ascii) : ascii :=
  let n := nat_of_ascii c in
  if ((65 <=? n) && (n <=? 90)
      || (192 <=? n) && (n <=? 222) && negb (n =? 215))%nat
  then ascii_of_nat (n + 32)
  else c.

Fixpoint toLowerCase (s : string) : string :=
  match s with
  | EmptyString => EmptyString
  | String c r => String (lower_unit c) (toLowerCase r)
  end.

Fixpoint drop (n : nat) (s : string) : string :=
  match n, s with
  | O, _ => s
  | S _, EmptyString => EmptyString
  | S m, String _ r => drop m r
  end.

(** [String.prototype.replace] with a string pattern: the first occurrence
    of [pat] becomes [rep] (a replacement text without dollar patterns). *)
Fixpoint replace (pat rep s : string) : string :=
  if String.prefix pat s then (rep ++ drop (String.length pat) s)%string
  else match s with
       | EmptyString => EmptyString
       | String c r => String c (replace pat rep r)
       end.

(** A template literal applied to a number that is an integer of
    magnitude below 2^53: its decimal digits.  (A larger number is rounded
    by its double and, from 1e21 on, printed with an exponent; those are
    outside the model.) *)
Definition number_toString (n : Z) : string :=
  DecimalString.NilZero.string_of_int (Z.to_int n).

End JS.

(** ** [frontend/src/types/api.ts] *)

(** A DOM [File]: the attributes the client reads.  The payload itself is
    never inspected by the client and is left out. *)
Record File := mkFile {
  file_name : string;
  file_size : Z;
  file_type : string
}.

Record RedactionRequest := mkRedactionRequest {
  req_file : File;
  req_prompt : option string;
  req_preview_only : option bool
}.

Record RedactionResponse := mkRedactionResponse {
  rr_job_id : string;
  rr_success : bool;
  rr_message : string;
  rr_preview_text : option string;
  rr_entities_detected : Z
}.

Inductive JobStatus := pending | processing | completed | failed.

Record JobResult := mkJobResult {
  redacted_file_url : option string;
  preview_text : option string;
  entities_detected : Z
}.

Record JobStatusResponse := mkJobStatusResponse {
  job_id : string;
  status : JobStatus;
  progress : Z;
  result : option JobResult;
  error : option string
}.

(** The body of a non-2xx reply.  Both fields are read through optional
    chaining by the client, so either may be missing at run time. *)
Record ErrorResponse := mkErrorResponse {
  detail : option string;
  status_code : option Z
}.

Record AnalyzePromptRequest := mkAnalyzePromptRequest {
  ap_prompt : string
}.

(** ** [frontend/src/lib/api.ts] *)

Module Api.

(** What axios hands to the rejection interceptor. *)
Record AxiosResponse := mkAxiosResponse {
  resp_data : option ErrorResponse;
  resp_status : Z
}.

Record AxiosError := mkAxiosError {
  err_response : option AxiosResponse;
  err_message : string
}.

(** The object the interceptor rejects with. *)
Record CustomError := mkCustomError {
  message : string;
  status : Z;
  originalError : AxiosError
}.

(** [error.response?.data?.detail] *)
Definition response_detail (error : AxiosError) : option string :=
  match err_response error with
  | Some r =>
      match resp_data r with
      | Some d => detail d
      | None => None
      end
  | None => None
  end.

(** [error.response?.status] *)
Definition response_status (error : AxiosError) : option Z :=
  match err_response error with
  | Some r => Some (resp_status r)
  | None => None
  end.

(** The rejection handler installed by [setupInterceptors]. *)
Definition onRejected (error : AxiosError) : CustomError :=
  {| message :=
       JS.or_string (response_detail error)
         (JS.or_string (Some (err_message error)) "An error occurred");
     status := JS.or_number (response_status error) 500;
     originalError := error |}.

(** The response interceptor: fulfilled responses pass through, rejected
    ones are rejected again with the normalized object. *)
Definition interceptor {A : Type} (r : A + AxiosError) : A + CustomError :=
  match r with
  | inl response => inl response
  | inr error => inr (onRejected error)
  end.

(** [FormData]: an ordered list of entries; [append] adds at the end. *)
Inductive FormValue :=
| FileValue (f : File)
| StringValue (s : string).

Definition FormData := list (string * FormValue).

Definition append (name : string) (v : FormValue) (fd : FormData)
  : FormData := (fd ++ [(name, v)])%list.

(** [FormData.prototype.has] and [FormData.prototype.get]. *)
Definition has (name : string) (fd : FormData) : bool :=
  existsb (fun e => (fst e =? name)%string) fd.

Definition get (name : string) (fd : FormData) : option FormValue :=
  match find (fun e => (fst e =? name)%string) fd with
  | Some e => Some (snd e)
  | None => None
  end.

Inductive Method := GET | POST.

Inductive Body :=
| NoBody
| Multipart (fd : FormData)
| Json (fields : list (string * string)).

Record Request := mkRequest {
  method : Method;
  url : string;
  body : Body;
  contentType : string;
  responseType : option string
}.

(** The form built by [processDocument]. *)
Definition processDocument_form (request : RedactionRequest) : FormData :=
  let formData := append "file" (FileValue (req_file request)) [] in
  let formData :=
    match req_prompt request with
    | Some p =>
        if JS.truthy p then append "prompt" (StringValue p) formData
        else formData
    | None => formData
    end in
  let formData :=
    match req_preview_only request with
    | Some b => append "preview_only" (StringValue (JS.bool_toString b)) formData
    | None => formData
    end in
  formData.

Definition uploadFile (file : File) : Request :=
  {| method := POST; url := "/upload";
     body := Multipart (append "file" (FileValue file) []);
     contentType := "multipart/form-data"; responseType := None |}.

Definition processDocument (request : RedactionRequest) : Request :=
  {| method := POST; url := "/redact";
     body := Multipart (processDocument_form request);
     contentType := "multipart/form-data"; responseType := None |}.

Definition getJobStatus (jobId : string) : Request :=
  {| method := GET; url := "/job/" ++ jobId ++ "/status";
     body := NoBody;
     contentType := "application/json"; responseType := None |}.

Definition downloadResult (jobId : string) : Request :=
  {| method := GET; url := "/job/" ++ jobId ++ "/download";
     body := NoBody;
     contentType := "application/json"; responseType := Some "blob" |}.

Definition analyzePrompt (request : AnalyzePromptRequest) : Request :=
  {| method := POST; url := "/analyze-prompt";
     body := Json [("prompt", ap_prompt request)];
     contentType := "application/json"; responseType := None |}.

(** The body of [POST /suggestions]. *)
Record SuggestionsRequest := mkSuggestionsRequest {
  text_sample : string
}.

Definition getSuggestions (request : SuggestionsRequest) : Request :=
  {| method := POST; url := "/suggestions";
     body := Json [("text_sample", text_sample request)];
     contentType := "application/json"; responseType := None |}.

Definition healthCheck : Request :=
  {| method := GET; url := "/health";
     body := NoBody;
     contentType := "application/json"; responseType := None |}.

End Api.

(** ** The query observer behind [useQuery]

    [useJobStatus] only configures a query: the fetching, the retries and
    the interval timer are performed by the query library.  This module is
    an executable model of the observer for the options the hook sets
    ([enabled], [queryFn], [refetchInterval] and [retry]):
    - a disabled observer never fetches and holds no interval timer;
    - a failed fetch is retried while the number of failures recorded so
      far is below [retry], otherwise the error is stored;
    - after every settled fetch the interval timer is armed again with the
      delay the [refetchInterval] callback answers, and not armed when it
      answers [false];
    - a timer that fires after it was cleared does nothing.
    The components read [isPending] on the results of [useMutation], which
    is the interface of version 5 of the library; in that version the
    [refetchInterval] callback is called with the query object, not with
    the data.  The data, the error and the status of a query are
    properties of its [state]; the query object itself has no property
    named [status].  The pause before a retry is not modelled, and
    neither are refetches on window focus or reconnection, which depend on
    client defaults configured outside these sources. *)

Module Query.

Inductive FetchStatus := idle | fetching.

Inductive Action :=
| Issue (request : Api.Request)
| Schedule (ms : Z).

Inductive QueryStatus := query_pending | query_error | query_success.

Section Observer.

Variables D E : Type.

(** The [state] of a query, as far as a callback can tell it apart. *)
Record QueryState := mkQueryState {
  state_data : option D;
  state_status : QueryStatus;
  state_fetchStatus : FetchStatus
}.

(** The query object handed to a [refetchInterval] callback. *)
Record QueryObject := mkQueryObject {
  query_key : list (option string);
  state : QueryState
}.

(** The value of a property read: [Undefined] for a property the object
    does not have, [Other] for one the model does not detail. *)
Inductive Value :=
| Undefined
| Str (s : string)
| Key (k : list (option string))
| State (s : QueryState)
| Other.

(** [query[name]] *)
Definition property (query : QueryObject) (name : string) : Value :=
  if (name =? "queryKey")%string then Key (query_key query)
  else if (name =? "state")%string then State (state query)
  else if existsb (String.eqb name)
            ["queryHash"; "options"; "observers"; "gcTime"; "meta"; "promise"]
       then Other
  else Undefined.

(** [v === s] for a string [s]. *)
Definition strict_equals (v : Value) (s : string) : bool :=
  match v with
  | Str x => (x =? s)%string
  | _ => false
  end.

Record Options := mkOptions {
  queryKey : list (option string);
  queryFn : Api.Request;
  enabled : bool;
  refetchInterval : QueryObject -> option Z;
  retry : nat
}.

Record Observer := mkObserver {
  data : option D;
  error : option E;
  fetchStatus : FetchStatus;
  failureCount : nat;
  timer : option Z
}.

Inductive Event :=
| Resolve (d : D)
| Reject (e : E)
| TimerFire.

Definition initial : Observer :=
  {| data := None; error := None; fetchStatus := idle;
     failureCount := 0; timer := None |}.

Definition startFetch (o : Options) (st : Observer)
  : Observer * list Action :=
  ({| data := data st; error := error st; fetchStatus := fetching;
      failureCount := 0; timer := None |},
   [Issue (queryFn o)]).

(** The interval armed once a fetch has settled and left the query in
    state [s]. *)
Definition nextTimer (o : Options) (s : QueryState) : option Z :=
  if enabled o
  then refetchInterval o {| query_key := queryKey o; state := s |}
  else None.

Definition scheduleActions (t : option Z) : list Action :=
  match t with
  | Some ms => [Schedule ms]
  | None => []
  end.

Definition mount (o : Options) : Observer * list Action :=
  if enabled o then startFetch o initial else (initial, []).

Definition step (o : Options) (st : Observer) (ev : Event)
  : Observer * list Action :=
  match ev with
  | Resolve d =>
      match fetchStatus st with
      | fetching =>
          let t := nextTimer o {| state_data := Some d;
                                  state_status := query_success;
                                  state_fetchStatus := idle |} in
          ({| data := Some d; error := None; fetchStatus := idle;
              failureCount := 0; timer := t |},
           scheduleActions t)
      | idle => (st, [])
      end
  | Reject e =>
      match fetchStatus st with
      | fetching =>
          if (failureCount st <? retry o)%nat then
            ({| data := data st; error := error st;
                fetchStatus := fetching;
                failureCount := S (failureCount st);
                timer := timer st |},
             [Issue (queryFn o)])
          else
            let t := nextTimer o {| state_data := data st;
                                    state_status := query_error;
                                    state_fetchStatus := idle |} in
            ({| data := data st; error := Some e; fetchStatus := idle;
                failureCount := S (failureCount st); timer := t |},
             scheduleActions t)
      | idle => (st, [])
      end
  | TimerFire =>
      match timer st, fetchStatus st with
      | Some _, idle =>
          if enabled o then startFetch o st else (st, [])
      | _, _ => (st, [])
      end
  end.

(** The observer is handed options in which only the [enabled] flag
    may differ from the previous ones. *)
Definition setOptions (prev next : Options) (st : Observer)
  : Observer * list Action :=
  if enabled next then
    match enabled prev, fetchStatus st with
    | false, idle => startFetch next st
    | _, _ => (st, [])
    end
  else
    ({| data := data st; error := error st;
        fetchStatus := fetchStatus st;
        failureCount := failureCount st; timer := None |}, []).

(** Feeding a list of events; the actions are collected in order. *)
Fixpoint run (o : Options) (st : Observer) (evs : list Event)
  : Observer * list Action :=
  match evs with
  | [] => (st, [])
  | ev :: evs' =>
      let '(st1, a1) := step o st ev in
      let '(st2, a2) := run o st1 evs' in
      (st2, (a1 ++ a2)%list)
  end.

Definition is_issue (a : Action) : bool :=
  match a with
  | Issue _ => true
  | Schedule _ => false
  end.

(** The queries among a list of actions. *)
Definition issued (acts : list Action) : list Action :=
  filter is_issue acts.

End Observer.

Arguments mkOptions {D}.
Arguments queryKey {D}.
Arguments queryFn {D}.
Arguments enabled {D}.
Arguments refetchInterval {D}.
Arguments state_data {D}.
Arguments state_status {D}.
Arguments state_fetchStatus {D}.
Arguments query_key {D}.
Arguments state {D}.
Arguments property {D}.
Arguments strict_equals {D}.
Arguments retry {D}.
Arguments data {D E}.
Arguments error {D E}.
Arguments fetchStatus {D E}.
Arguments failureCount {D E}.
Arguments timer {D E}.
Arguments Resolve {D E}.
Arguments Reject {D E}.
Arguments TimerFire {D E}.
Arguments initial {D E}.
Arguments mount {D E}.
Arguments step {D E}.
Arguments setOptions {D E}.
Arguments run {D E}.

End Query.

(** ** [frontend/src/hooks/useApi.ts] *)

Module Hooks.

(** The non-null assertion [jobId!] inside a template literal. *)
Definition jobId_text (jobId : option string) : string :=
  match jobId with
  | Some j => j
  | None => "null"
  end.

(** The [refetchInterval] callback of [useJobStatus], applied to what the
    library hands it; [data?.status] is a property read on that object and
    [None] is [false]. *)
Definition refetchInterval (data : Query.QueryObject JobStatusResponse)
  : option Z :=
  if Query.strict_equals (Query.property data "status") "completed"
     || Query.strict_equals (Query.property data "status") "failed"
  then None
  else Some 2000.

(** [useJobStatus(jobId, enabled = true)]. *)
Definition useJobStatus (jobId : option string) (enabled : option bool)
  : Query.Options JobStatusResponse :=
  let enabled := match enabled with Some b => b | None => true end in
  {| Query.queryKey := [Some "job-status"; jobId];
     Query.queryFn := Api.getJobStatus (jobId_text jobId);
     Query.enabled := enabled && JS.truthy_opt jobId;
     Query.refetchInterval := refetchInterval;
     Query.retry := 3 |}.

(** The anchor element built by the download handler. *)
Record Anchor := mkAnchor {
  href : string;
  download : string
}.

Definition Blob := list Byte.byte.

Inductive DomEffect :=
| CreateObjectURL (blob : Blob) (url : string)
| AppendChild (a : Anchor)
| Click (a : Anchor)
| RevokeObjectURL (url : string)
| RemoveChild (a : Anchor).

(** [onSuccess] of [useDownloadResult]; [url] is the object URL the host
    returns from [createObjectURL]. *)
Definition download_onSuccess (url : string) (blob : Blob) (jobId : string)
  : list DomEffect :=
  let a := {| href := url;
              download := "redacted-document-" ++ jobId ++ ".txt" |} in
  [CreateObjectURL blob url; AppendChild a; Click a;
   RevokeObjectURL url; RemoveChild a].

(** The file name under which the host saves the artifact: the
    [download] attribute of the anchor that is clicked. *)
Fixpoint saved_as (effects : list DomEffect) : option string :=
  match effects with
  | [] => None
  | Click a :: _ => Some (download a)
  | _ :: rest => saved_as rest
  end.

(** [onSuccess] of [useProcessDocument]: the query key it invalidates,
    if any. *)
Definition processDocument_onSuccess (data : RedactionResponse)
  : option (list (option string)) :=
  if JS.truthy (rr_job_id data)
  then Some [Some "job-status"; Some (rr_job_id data)]
  else None.

(** [useHealthCheck]: no [enabled] and no [refetchInterval] option, so
    the query is enabled and has no interval.  ([staleTime] concerns the
    freshness of cached data, which the observer model does not cover.) *)
Definition useHealthCheck : Query.Options string :=
  {| Query.queryKey := [Some "health"];
     Query.queryFn := Api.healthCheck;
     Query.enabled := true;
     Query.refetchInterval := fun _ => None;
     Query.retry := 2 |}.

End Hooks.

(** ** The [FileUpload] component *)

Module FileUpload.

Record UploadedFile := mkUploadedFile {
  file : File;
  id : string
}.

Definition Poller := Query.Observer JobStatusResponse Api.CustomError.
Definition PollerEvent := Query.Event JobStatusResponse Api.CustomError.

(** The component state: the three [useState] cells, the pending flag of
    the [useProcessDocument] mutation and the observer of
    [useJobStatus(jobId, !!jobId)]. *)
Record State := mkState {
  uploadedFile : option UploadedFile;
  prompt : string;
  jobId : option string;
  isPending : bool;
  jobStatus : Poller
}.

Inductive Effect :=
| ToastError (msg : string)
| ToastSuccess (msg : string)
| Network (request : Api.Request)
| Timer (ms : Z)
| Dom (e : Hooks.DomEffect).

Definition initial : State :=
  {| uploadedFile := None; prompt := EmptyString; jobId := None;
     isPending := false; jobStatus := Query.initial |}.

Definition maxSize : Z := 50 * 1024 * 1024.

Definition allowedTypes : list string :=
  [ "text/plain";
    "application/pdf";
    "application/vnd.openxmlformats-officedocument.wordprocessingml.document";
    "image/png";
    "image/jpeg";
    "image/jpg" ].

(** [Array.prototype.includes] on an array of strings. *)
Definition includes (l : list string) (s : string) : bool :=
  existsb (fun x => (x =? s)%string) l.

Definition dquote : string := String (ascii_of_nat 34) EmptyString.

Definition onDrop (acceptedFiles : list File) (random_id : string)
    (st : State) : State * list Effect :=
  match acceptedFiles with
  | [] => (st, [])
  | file :: _ =>
      if maxSize <? file_size file then
        (st, [ToastError "File size must be less than 50MB"])
      else if negb (includes allowedTypes (file_type file)) then
        (st, [ToastError
                "Unsupported file type. Please upload .txt, .pdf, .docx, or image files."])
      else
        ({| uploadedFile := Some {| file := file; id := random_id |};
            prompt := prompt st; jobId := jobId st;
            isPending := isPending st; jobStatus := jobStatus st |},
         [ToastSuccess
            ("File " ++ dquote ++ file_name file ++ dquote
               ++ " ready for processing")])
  end.

(** The options [useJobStatus(jobId, !!jobId)] evaluates to. *)
Definition pollerOptions (j : option string)
  : Query.Options JobStatusResponse :=
  Hooks.useJobStatus j (Some (JS.truthy_opt j)).

Definition pollerEffect (a : Query.Action) : Effect :=
  match a with
  | Query.Issue r => Network r
  | Query.Schedule ms => Timer ms
  end.

Definition option_string_eqb (a b : option string) : bool :=
  match a, b with
  | Some x, Some y => (x =? y)%string
  | None, None => true
  | _, _ => false
  end.

(** [setJobId]: a new job id is a new query key, observed from
    scratch; the same id leaves the component as it is. *)
Definition setJobId (j : option string) (st : State)
  : State * list Effect :=
  if option_string_eqb j (jobId st) then (st, [])
  else
    let '(p, acts) := Query.mount (pollerOptions j) in
    ({| uploadedFile := uploadedFile st; prompt := prompt st;
        jobId := j; isPending := isPending st; jobStatus := p |},
     map pollerEffect acts).

(** The object literal passed to [processDocument.mutateAsync]. *)
Definition handleProcess_request (st : State) : option RedactionRequest :=
  match uploadedFile st with
  | None => None
  | Some u =>
      Some {| req_file := file u;
              req_prompt := JS.or_undefined (JS.trim (prompt st));
              req_preview_only := Some false |}
  end.

(** [handleProcess] up to the [await]. *)
Definition handleProcess (st : State) : State * list Effect :=
  match handleProcess_request st with
  | None => (st, [])
  | Some request =>
      ({| uploadedFile := uploadedFile st; prompt := prompt st;
          jobId := jobId st; isPending := true;
          jobStatus := jobStatus st |},
       [Network (Api.processDocument request)])
  end.

(** [handleProcess] after the [await]: the [try] branch on a fulfilled
    request, the [catch] branch on a rejected one.  The toast is shown
    during the handler; the status query of the new job id starts with
    the render that follows.  ([onSuccess] of [useProcessDocument]
    invalidates the query of the new job id first; no observer holds that
    query yet, so nothing is fetched.) *)
Definition handleProcess_settled
    (outcome : RedactionResponse + Api.CustomError) (st : State)
  : State * list Effect :=
  if isPending st then
    let st := {| uploadedFile := uploadedFile st; prompt := prompt st;
                 jobId := jobId st; isPending := false;
                 jobStatus := jobStatus st |} in
    match outcome with
    | inl result =>
        let '(st', effs) := setJobId (Some (rr_job_id result)) st in
        (st', ToastSuccess "Document processing started!" :: effs)
    | inr error =>
        (st, [ToastError
                (JS.or_string (Some (Api.message error))
                   "Failed to process document")])
    end
  else (st, []).

Definition handleDownload (url : string)
    (outcome : Hooks.Blob + Api.CustomError) (st : State)
  : State * list Effect :=
  match jobId st with
  | None => (st, [])
  | Some j =>
      if JS.truthy j then
        let net := Network (Api.downloadResult j) in
        match outcome with
        | inl blob =>
            (st, (net :: map Dom (Hooks.download_onSuccess url blob j)
                    ++ [ToastSuccess "Document downloaded successfully!"])%list)
        | inr error =>
            (st, [net;
                  ToastError
                    (JS.or_string (Some (Api.message error))
                       "Failed to download document")])
        end
      else (st, [])
  end.

Definition handleReset (st : State) : State * list Effect :=
  let '(st1, effs) := setJobId None st in
  ({| uploadedFile := None; prompt := EmptyString; jobId := jobId st1;
      isPending := isPending st1; jobStatus := jobStatus st1 |}, effs).

Definition setPrompt (v : string) (st : State) : State * list Effect :=
  ({| uploadedFile := uploadedFile st; prompt := v; jobId := jobId st;
      isPending := isPending st; jobStatus := jobStatus st |}, []).

Definition poll (ev : PollerEvent) (st : State) : State * list Effect :=
  let '(p, acts) := Query.step (pollerOptions (jobId st)) (jobStatus st) ev in
  ({| uploadedFile := uploadedFile st; prompt := prompt st;
      jobId := jobId st; isPending := isPending st; jobStatus := p |},
   map pollerEffect acts).

(** What can happen to the component. *)
Inductive Event :=
| Drop (acceptedFiles : list File) (random_id : string)
| SetPrompt (v : string)
| ProcessClick
| ProcessSettled (outcome : RedactionResponse + Api.CustomError)
| DownloadClick (url : string) (outcome : Hooks.Blob + Api.CustomError)
| ResetClick
| Poll (ev : PollerEvent).

Definition step (st : State) (ev : Event) : State * list Effect :=
  match ev with
  | Drop acceptedFiles random_id => onDrop acceptedFiles random_id st
  | SetPrompt v => setPrompt v st
  | ProcessClick => handleProcess st
  | ProcessSettled outcome => handleProcess_settled outcome st
  | DownloadClick url outcome => handleDownload url outcome st
  | ResetClick => handleReset st
  | Poll ev => poll ev st
  end.

Fixpoint run (st : State) (evs : list Event) : State * list Effect :=
  match evs with
  | [] => (st, [])
  | ev :: evs' =>
      let '(st1, e1) := step st ev in
      let '(st2, e2) := run st1 evs' in
      (st2, (e1 ++ e2)%list)
  end.

(** The requests among a list of effects. *)
Fixpoint network (effs : list Effect) : list Api.Request :=
  match effs with
  | [] => []
  | Network r :: rest => r :: network rest
  | _ :: rest => network rest
  end.

(** The allow-list in the words of the specification: the kinds of
    document a declared MIME type may stand for.  This is the reference
    the array [allowedTypes] is compared with. *)
Inductive DocumentKind := PlainText | Pdf | WordDocument | Png | Jpeg.

Definition mime_kind (t : string) : option DocumentKind :=
  if (t =? "text/plain")%string then Some PlainText
  else if (t =? "application/pdf")%string then Some Pdf
  else if (t =? "application/vnd.openxmlformats-officedocument.wordprocessingml.document")%string
       then Some WordDocument
  else if (t =? "image/png")%string then Some Png
  else if (t =? "image/jpeg")%string then Some Jpeg
  else if (t =? "image/jpg")%string then Some Jpeg
  else None.

(** The first accepted file of a drop, [acceptedFiles[0]]. *)
Definition dropped (ev : Event) : option File :=
  match ev with
  | Drop (f :: _) _ => Some f
  | _ => None
  end.

End FileUpload.

(** ** The [NaturalLanguageInput] component

    The component imports [useAnalyzePrompt] from the hooks module, which
    does not define it in these sources.  The hook is taken as a parameter:
    a state [H] (its [data] and [isPending]) that the component can change
    only by calling [mutate]. *)

Module NaturalLanguageInput.

(** A pending [setTimeout]: when it is due and the value its closure
    captured. *)
Record Timeout := mkTimeout {
  due : Z;
  captured : string
}.

(** The prop changes to [v] at time [now]; the clock reaches [now]. *)
Inductive Event :=
| Change (now : Z) (v : string)
| Fire (now : Z).

Section Component.

Variable H : Type.
Variable mutate : AnalyzePromptRequest -> H -> H.

(** [value] is the prop, [debouncedValue] the state cell, [handler]
    the timer of the first effect; [changedAt] records when [value]
    last changed. *)
Record State := mkState {
  value : string;
  debouncedValue : string;
  handler : option Timeout;
  changedAt : Z;
  analyzePrompt : H
}.

Definition delay : Z := 500.

(** The second effect, run when [debouncedValue] has changed (and on
    mount): it returns the hook state and the calls it made. *)
Definition analyze_effect (debounced : string) (h : H)
  : H * list AnalyzePromptRequest :=
  if (3 <? String.length (JS.trim debounced))%nat then
    let request := {| ap_prompt := debounced |} in
    (mutate request h, [request])
  else (h, []).

(** Mounting at time [now] with prop [v]: both effects run once. *)
Definition mount (now : Z) (v : string) (h : H)
  : State * list AnalyzePromptRequest :=
  let '(h', calls) := analyze_effect v h in
  ({| value := v; debouncedValue := v;
      handler := Some {| due := now + delay; captured := v |};
      changedAt := now; analyzePrompt := h' |}, calls).

Definition step (st : State) (ev : Event)
  : State * list AnalyzePromptRequest :=
  match ev with
  | Change now v =>
      if (v =? value st)%string then (st, [])
      else
        (* cleanup of the first effect, then the effect again *)
        ({| value := v; debouncedValue := debouncedValue st;
            handler := Some {| due := now + delay; captured := v |};
            changedAt := now; analyzePrompt := analyzePrompt st |}, [])
  | Fire now =>
      match handler st with
      | Some t =>
          if due t <=? now then
            if (captured t =? debouncedValue st)%string then
              ({| value := value st; debouncedValue := debouncedValue st;
                  handler := None; changedAt := changedAt st;
                  analyzePrompt := analyzePrompt st |}, [])
            else
              let '(h', calls) :=
                analyze_effect (captured t) (analyzePrompt st) in
              ({| value := value st; debouncedValue := captured t;
                  handler := None; changedAt := changedAt st;
                  analyzePrompt := h' |}, calls)
          else (st, [])
      | None => (st, [])
      end
  end.

Fixpoint run (st : State) (evs : list Event)
  : State * list AnalyzePromptRequest :=
  match evs with
  | [] => (st, [])
  | ev :: evs' =>
      let '(st1, c1) := step st ev in
      let '(st2, c2) := run st1 evs' in
      (st2, (c1 ++ c2)%list)
  end.

(** The states the component reaches inside [FileUpload], where it is
    mounted with the empty prompt. *)
Definition reachable (st : State) : Prop :=
  exists now h evs, st = fst (run (fst (mount now EmptyString h)) evs).

End Component.

Arguments value {H}.
Arguments debouncedValue {H}.
Arguments handler {H}.
Arguments changedAt {H}.
Arguments analyzePrompt {H}.

(** The suggestions offered under the input. *)
Definition EXAMPLE_PROMPTS : list string :=
  [ "Don't redact names, only SSN and credit cards";
    "Hide all personal info but keep company names";
    "Only redact phone numbers and email addresses";
    "Remove SSN and addresses but keep names";
    "Redact everything except dates" ].

(** [handleSuggestionClick] at time [now]: [onChange(prompt)] makes the
    parent pass the suggestion down as the new value.  (Closing the list
    of suggestions only affects what is drawn.) *)
Definition handleSuggestionClick (now : Z) (prompt : string) : Event :=
  Change now prompt.

End NaturalLanguageInput.

(** ** The [ProcessingStatus] component

    The texts of the message tables are kept as the bytes of the source
    file.  The icon markup is left out; the [default] branches of the
    switches cannot be reached with a status of one of the four kinds. *)

Module ProcessingStatus.

Record Message := mkMessage {
  text : string;
  emoji : string
}.

Module PROCESSING_MESSAGES.

Definition initializing : list Message :=
  [
    {| text := "🎭 Skidaddling through document..."; emoji := "🎭" |};
    {| text := "🎪 Preparing the hullabaloo..."; emoji := "🎪" |};
    {| text := "✨ Warming up the magic..."; emoji := "✨" |};
    {| text := "🎨 Calibrating the widgets..."; emoji := "🎨" |} ].

Definition pending : list Message :=
  [
    {| text := "🕰️ Queuing up the shenanigans..."; emoji := "🕰️" |};
    {| text := "🎯 Taking a number..."; emoji := "🎯" |};
    {| text := "🎪 Waiting for the spotlight..."; emoji := "🎪" |};
    {| text := "⏳ Practicing patience..."; emoji := "⏳" |} ].

Definition processing : list Message :=
  [
    {| text := "🕵️ Canoodling with sensitive data..."; emoji := "🕵️" |};
    {| text := "🔍 Sleuthing through paragraphs..."; emoji := "🔍" |};
    {| text := "🎪 Bamboozling PII patterns..."; emoji := "🎪" |};
    {| text := "🎭 Investigating the rascals..."; emoji := "🎭" |};
    {| text := "🎨 Shenaniganing redaction boxes..."; emoji := "🎨" |};
    {| text := "✨ Applying privacy magic..."; emoji := "✨" |} ].

Definition finalizing : list Message :=
  [
    {| text := "🎁 Wrapping up the package..."; emoji := "🎁" |};
    {| text := "✨ Polishing the masterpiece..."; emoji := "✨" |};
    {| text := "🎪 Finalizing the hullabaloo..."; emoji := "🎪" |};
    {| text := "🎨 Adding the finishing touches..."; emoji := "🎨" |} ].

End PROCESSING_MESSAGES.

Record Props := mkProps {
  jobStatus : option JobStatusResponse;
  isLoading : bool;
  downloadLoading : bool
}.

(** [getMessagesForStatus] as the effect defines it. *)
Definition effect_getMessagesForStatus (p : Props) : list Message :=
  if isLoading p then PROCESSING_MESSAGES.initializing
  else match jobStatus p with
       | None => PROCESSING_MESSAGES.initializing
       | Some js =>
           match status js with
           | pending => PROCESSING_MESSAGES.pending
           | processing =>
               if progress js >? 80 then PROCESSING_MESSAGES.finalizing
               else PROCESSING_MESSAGES.processing
           | completed | failed => PROCESSING_MESSAGES.processing
           end
       end.

(** The effect: [None] when it returns before [setInterval], otherwise
    the table the interval callback has captured. *)
Definition effect (p : Props) : option (list Message) :=
  match jobStatus p with
  | None => None
  | Some js =>
      match status js with
      | completed | failed => None
      | pending | processing => Some (effect_getMessagesForStatus p)
      end
  end.

(** The updater given to [setCurrentMessageIndex]. *)
Definition next_index (messages : list Message) (prev : nat) : nat :=
  ((prev + 1) mod List.length messages)%nat.

Record State := mkState {
  props : Props;
  currentMessageIndex : nat;
  interval : option (list Message)
}.

Inductive Event :=
| SetProps (p : Props)
| Tick.

Definition mount (p : Props) : State :=
  {| props := p; currentMessageIndex := 0%nat; interval := effect p |}.

(** New props run the cleanup and the effect again; a tick of a cleared
    interval does nothing. *)
Definition step (st : State) (ev : Event) : State :=
  match ev with
  | SetProps p =>
      {| props := p; currentMessageIndex := currentMessageIndex st;
         interval := effect p |}
  | Tick =>
      match interval st with
      | Some messages =>
          {| props := props st;
             currentMessageIndex := next_index messages (currentMessageIndex st);
             interval := interval st |}
      | None => st
      end
  end.

Definition run (st : State) (evs : list Event) : State :=
  fold_left step evs st.

Inductive Color := blue | orange | green | red.

Record StatusInfo := mkStatusInfo {
  title : string;
  description : string;
  color : Color
}.

(** [getMessagesForStatus] as [getStatusInfo] defines it. *)
Definition getMessagesForStatus (js : JobStatusResponse) : list Message :=
  match status js with
  | pending => PROCESSING_MESSAGES.pending
  | processing =>
      if progress js >? 80 then PROCESSING_MESSAGES.finalizing
      else PROCESSING_MESSAGES.processing
  | completed | failed => PROCESSING_MESSAGES.processing
  end.

Definition getStatusInfo (js : JobStatusResponse) (index : nat) : StatusInfo :=
  let currentMessage :=
    match status js with
    | pending | processing => nth_error (getMessagesForStatus js) index
    | completed | failed => None
    end in
  match status js with
  | pending =>
      {| title := JS.or_string (option_map text currentMessage)
                    "Queued for Processing";
         description := "Your document is in the queue";
         color := blue |}
  | processing =>
      {| title := JS.or_string (option_map text currentMessage)
                    "Processing Document";
         description := "Detecting and redacting sensitive information";
         color := orange |}
  | completed =>
      {| title := "🎉 Processing Complete!";
         description :=
           "Found and redacted "
             ++ JS.number_toString
                  (JS.or_number (option_map entities_detected (result js)) 0)
             ++ " sensitive items";
         color := green |}
  | failed =>
      {| title := "😞 Processing Failed";
         description := JS.or_string (error js)
                          "An error occurred during processing";
         color := red |}
  end.

(** What is rendered: the spinner card, or the status card with its
    optional progress bar and download button ([Some true] is a disabled
    button). *)
Inductive View :=
| LoadingView (heading : string)
| StatusView (info : StatusInfo) (progressBar : option Z)
    (downloadButton : option bool) (shownJobId : string).

Inductive Thrown := TypeError.

(** Rendering; reading [text] of [undefined] throws. *)
Definition render (p : Props) (index : nat) : View + Thrown :=
  match (if isLoading p then None else jobStatus p) with
  | None =>
      match nth_error PROCESSING_MESSAGES.initializing index with
      | Some currentMessage => inl (LoadingView (text currentMessage))
      | None => inr TypeError
      end
  | Some js =>
      inl (StatusView (getStatusInfo js index)
             (match status js with
              | processing => Some (progress js)
              | _ => None
              end)
             (match status js with
              | completed => Some (downloadLoading p)
              | _ => None
              end)
             (job_id js))
  end.

End ProcessingStatus.

(** ** The [EntityDetectionPreview] component

    The reply of the analysis endpoint is read as the component reads it:
    two arrays of entity tags, a confidence that is compared with the
    strings high and low, and the optional [unrecognized_terms] and
    [error]. *)

Module EntityDetectionPreview.

Record AnalyzePromptResponse := mkAnalyzePromptResponse {
  entities_to_redact : list string;
  entities_to_keep : list string;
  confidence : option string;
  unrecognized_terms : option (list string);
  error : option string
}.

Inductive Tone := yellow | green | red | blue.

Inductive Block :=
| WillRedact (labels : list string)
| WillKeep (labels : list string)
| Unrecognized (terms : list string)
| DefaultNotice
| ErrorMessage (msg : string).

Inductive Body :=
| Skeleton
| Blocks (bs : list Block)
| Nothing.

Record Panel := mkPanel {
  dot : Tone;
  heading : string;
  badge : option (Tone * string);
  body : Body
}.

(** [entity.toLowerCase().replace('_', ' ')] *)
Definition label (entity : string) : string :=
  JS.replace "_" " " (JS.toLowerCase entity).

(** The tone chosen by the two nested conditionals on [confidence]. *)
Definition confidence_tone (c : option string) : Tone :=
  match c with
  | Some x =>
      if (x =? "high")%string then green
      else if (x =? "low")%string then red
      else blue
  | None => blue
  end.

Definition nonempty {A : Type} (l : list A) : bool :=
  (0 <? List.length l)%nat.

Definition blocks (a : AnalyzePromptResponse) : list Block :=
  ((if nonempty (entities_to_redact a)
    then [WillRedact (map label (entities_to_redact a))] else [])
   ++ (if nonempty (entities_to_keep a)
       then [WillKeep (map label (entities_to_keep a))] else [])
   ++ (match unrecognized_terms a with
       | Some terms => if nonempty terms then [Unrecognized terms] else []
       | None => []
       end)
   ++ (if (List.length (entities_to_redact a) =? 0)%nat
          && (List.length (entities_to_keep a) =? 0)%nat
          && match unrecognized_terms a with
             | Some terms => (List.length terms =? 0)%nat
             | None => true
             end
       then [DefaultNotice] else [])
   ++ (match error a with
       | Some msg => if JS.truthy msg then [ErrorMessage msg] else []
       | None => []
       end))%list.

(** The component; [None] is the [null] it returns when it has nothing
    to show. *)
Definition render (analysis : option AnalyzePromptResponse)
    (isLoading : bool) (prompt : string) : option Panel :=
  if negb (JS.truthy (JS.trim prompt))
     || (match analysis with Some _ => false | None => true end
         && negb isLoading)
  then None
  else
    let c := match analysis with
             | Some a => confidence a
             | None => None
             end in
    Some {| dot := if isLoading then yellow else confidence_tone c;
            heading := if isLoading then "Analyzing prompt..."
                       else "What Cloak understood:";
            badge := match c with
                     | Some x =>
                         if JS.truthy x
                         then Some (confidence_tone c, x ++ " confidence")
                         else None
                     | None => None
                     end;
            body := if isLoading then Skeleton
                    else match analysis with
                         | Some a => Blocks (blocks a)
                         | None => Nothing
                         end |}.

End EntityDetectionPreview.

(** * Properties *)

(** ** Transport client *)

Lemma or_string_nonempty (a : option string) (b : string) :
  b <> EmptyString -> JS.or_string a b <> EmptyString.
Proof.
  intros Hb. unfold JS.or_string, JS.truthy.
  destruct a as [s|]; [|exact Hb].
  destruct (String.eqb_spec s ""); simpl; assumption.
Qed.

Lemma or_string_truthy (s b : string) :
  s <> EmptyString -> JS.or_string (Some s) b = s.
Proof.
  intros Hs. unfold JS.or_string, JS.truthy.
  destruct (String.eqb_spec s ""); [contradiction | reflexivity].
Qed.

Lemma or_string_falsy (a : option string) (b : string) :
  a = None \/ a = Some EmptyString -> JS.or_string a b = b.
Proof. intros [-> | ->]; reflexivity. Qed.

(** A reply of a gateway that carries no [detail]. *)
Definition bad_gateway : Api.AxiosError :=
  {| Api.err_response :=
       Some {| Api.resp_data := Some {| detail := None; status_code := None |};
               Api.resp_status := 502 |};
     Api.err_message := "Request failed with status code 502" |}.

(** The upload reply of the end-to-end scenario: status 413 with body
    [{detail: "File too large"}]. *)
Definition too_large : Api.AxiosError :=
  {| Api.err_response :=
       Some {| Api.resp_data :=
                 Some {| detail := Some "File too large"; status_code := None |};
               Api.resp_status := 413 |};
     Api.err_message := "Request failed with status code 413" |}.

(** C1, as stated, fails: a response was received, yet the normalized
    message is the transport-level message and not the detail field. *)
Lemma onRejected_response_without_detail :
  Api.err_response bad_gateway <> None /\
  Some (Api.message (Api.onRejected bad_gateway)) <> Api.response_detail bad_gateway /\
  Api.message (Api.onRejected bad_gateway) = Api.err_message bad_gateway.
Proof. repeat split; discriminate. Qed.

(** C1 (amended): every rejected request reaches the caller as a
    normalized error.  Its message is the detail field when a response
    carrying a non-empty detail was received, otherwise the transport-level
    message, otherwise the generic message, and is never empty.  Its status
    is the (non-zero) status code of the response when one was received and
    500 otherwise.  The 413 reply with detail "File too large" yields
    message "File too large" and status 413. *)
Theorem onRejected_normalizes (error : Api.AxiosError) :
  let e := Api.onRejected error in
  Api.interceptor (A := unit) (inr error) = inr e /\
  (forall d, Api.response_detail error = Some d -> d <> EmptyString ->
             Api.message e = d) /\
  (Api.response_detail error = None \/
   Api.response_detail error = Some EmptyString ->
   Api.err_message error <> EmptyString ->
   Api.message e = Api.err_message error) /\
  (Api.response_detail error = None \/
   Api.response_detail error = Some EmptyString ->
   Api.err_message error = EmptyString ->
   Api.message e = "An error occurred") /\
  Api.message e <> EmptyString /\
  (forall r, Api.err_response error = Some r -> Api.resp_status r <> 0 ->
             Api.status e = Api.resp_status r) /\
  (Api.err_response error = None -> Api.status e = 500) /\
  Api.originalError e = error /\
  Api.message (Api.onRejected too_large) = "File too large" /\
  Api.status (Api.onRejected too_large) = 413.
Proof.
  cbn zeta. unfold Api.onRejected; cbn [Api.message Api.status Api.originalError].
  repeat split.
  - intros d Hd Hne. rewrite Hd. now apply or_string_truthy.
  - intros Hd Hm. rewrite (or_string_falsy _ _ Hd). now apply or_string_truthy.
  - intros Hd Hm. rewrite (or_string_falsy _ _ Hd), Hm. reflexivity.
  - apply or_string_nonempty, or_string_nonempty. discriminate.
  - intros r Hr Hs. unfold Api.response_status. rewrite Hr. cbn.
    destruct (Z.eqb_spec (Api.resp_status r) 0); [contradiction | reflexivity].
  - intros Hr. unfold Api.response_status. rewrite Hr. reflexivity.
Qed.

Lemma onRejected_normalizes_witness :
  Api.message (Api.onRejected too_large) = "File too large" /\
  Api.status (Api.onRejected too_large) = 413 /\
  Api.message (Api.onRejected bad_gateway) = "Request failed with status code 502".
Proof.
  destruct (onRejected_normalizes too_large) as (_ & Hd & _ & _ & _ & Hs & _).
  destruct (onRejected_normalizes bad_gateway) as (_ & _ & Hm & _).
  split; [|split].
  - apply Hd; [reflexivity | discriminate].
  - apply (Hs _ eq_refl). discriminate.
  - apply Hm; [left; reflexivity | discriminate].
Defined.

(** ** The submission form *)

Lemma has_append (n m : string) (v : Api.FormValue) (fd : Api.FormData) :
  Api.has n (Api.append m v fd) = Api.has n fd || (m =? n)%string.
Proof.
  unfold Api.has, Api.append. rewrite existsb_app. cbn.
  now rewrite orb_false_r.
Qed.

Lemma get_append (n m : string) (v : Api.FormValue) (fd : Api.FormData) :
  Api.get n (Api.append m v fd) =
  match Api.get n fd with
  | Some x => Some x
  | None => if (m =? n)%string then Some v else None
  end.
Proof.
  unfold Api.get, Api.append.
  induction fd as [|[k x] fd IH]; cbn.
  - destruct (m =? n)%string; reflexivity.
  - destruct (k =? n)%string; [reflexivity | exact IH].
Qed.

Lemma truthy_spec (s : string) :
  (JS.truthy s = true /\ s <> EmptyString) \/
  (JS.truthy s = false /\ s = EmptyString).
Proof.
  unfold JS.truthy. destruct (String.eqb_spec s "");
    [right | left]; split; auto.
Qed.

Definition sample_file : File :=
  {| file_name := "test.txt"; file_size := 100; file_type := "text/plain" |}.

(** C7, as stated, fails: a prompt is supplied (the empty string) and the
    transmitted form has no prompt field. *)
Lemma processDocument_drops_empty_prompt :
  let request := {| req_file := sample_file;
                    req_prompt := Some EmptyString;
                    req_preview_only := None |} in
  req_prompt request <> None /\
  Api.has "prompt" (Api.processDocument_form request) = false.
Proof. split; [discriminate | reflexivity]. Qed.

(** C7 (amended): the multipart form of a job submission always contains
    the file field; it contains the prompt field if and only if a
    non-empty prompt was supplied, with that prompt as its value; it
    contains the preview_only field if and only if previewOnly was
    supplied, as the string "true" or "false". *)
Theorem processDocument_form_fields (request : RedactionRequest) :
  let fd := Api.processDocument_form request in
  Api.body (Api.processDocument request) = Api.Multipart fd /\
  Api.get "file" fd = Some (Api.FileValue (req_file request)) /\
  (Api.has "prompt" fd = true <->
   exists p, req_prompt request = Some p /\ p <> EmptyString) /\
  (forall p, req_prompt request = Some p -> p <> EmptyString ->
             Api.get "prompt" fd = Some (Api.StringValue p)) /\
  (Api.has "preview_only" fd = true <-> req_preview_only request <> None) /\
  (forall b, req_preview_only request = Some b ->
             Api.get "preview_only" fd =
             Some (Api.StringValue (if b then "true" else "false"))).
Proof.
  destruct request as [f pr pv]. cbn zeta.
  unfold Api.processDocument, Api.processDocument_form;
    cbn [req_file req_prompt req_preview_only Api.body].
  split; [reflexivity|].
  destruct pr as [p|]; [destruct (truthy_spec p) as [[-> Hp]|[-> Hp]]|];
    destruct pv as [b|];
    rewrite ?has_append, ?get_append; cbn.
  all: split; [reflexivity|].
  all: split;
    [split;
     [intros H;
      first [discriminate H | exists p; split; [reflexivity|assumption]]
     |intros (q & Hq & Hne); first [reflexivity | congruence]]|].
  all: split; [intros q Hq Hne; congruence|].
  all: split;
    [split; intros H; first [discriminate H | reflexivity | congruence]|].
  all: intros c Hc; try discriminate Hc.
  all: injection Hc as <-; destruct b; reflexivity.
Qed.

Lemma processDocument_form_fields_witness :
  Api.get "prompt"
    (Api.processDocument_form
       {| req_file := sample_file; req_prompt := Some "Redact SSN only";
          req_preview_only := Some true |})
  = Some (Api.StringValue "Redact SSN only") /\
  Api.get "preview_only"
    (Api.processDocument_form
       {| req_file := sample_file; req_prompt := Some "Redact SSN only";
          req_preview_only := Some true |})
  = Some (Api.StringValue "true").
Proof.
  destruct (processDocument_form_fields
              {| req_file := sample_file; req_prompt := Some "Redact SSN only";
                 req_preview_only := Some true |})
    as (_ & _ & _ & Hp & _ & Hv).
  split.
  - apply Hp; [reflexivity | discriminate].
  - apply (Hv true). reflexivity.
Defined.

(** ** Trimming *)

Lemma trimEnd_all_white (s : string) :
  JS.trimEnd s = EmptyString <-> JS.all_white s = true.
Proof.
  induction s as [|c r IH]; cbn; [tauto|].
  destruct (JS.is_white c); cbn.
  - destruct (String.eqb_spec (JS.trimEnd r) "") as [E|E]; rewrite <- IH.
    + tauto.
    + split; [discriminate | contradiction].
  - split; discriminate.
Qed.

Lemma all_white_trimStart (s : string) :
  JS.all_white (JS.trimStart s) = JS.all_white s.
Proof.
  induction s as [|c r IH]; cbn; [reflexivity|].
  destruct (JS.is_white c) eqn:E; cbn; [exact IH | now rewrite E].
Qed.

Lemma trim_empty_iff (s : string) :
  JS.trim s = EmptyString <-> JS.all_white s = true.
Proof.
  unfold JS.trim. rewrite trimEnd_all_white. now rewrite all_white_trimStart.
Qed.

Lemma or_undefined_spec (s : string) :
  (s = EmptyString /\ JS.or_undefined s = None) \/
  (s <> EmptyString /\ JS.or_undefined s = Some s).
Proof.
  unfold JS.or_undefined.
  destruct (truthy_spec s) as [[-> H]|[-> H]]; [right | left]; auto.
Qed.

Example trim_pads : JS.trim "  Redact SSN only   " = "Redact SSN only".
Proof. reflexivity. Qed.

Example trim_inner : JS.trim " a b " = "a b".
Proof. reflexivity. Qed.

(** ** Submission from the component *)

(** C10: when [handleProcess] submits, it issues one request, a POST to
    /redact whose body is a multipart form.  The request object carries a
    prompt if and only if the trimmed prompt is non-empty, and so does the
    form that is transmitted; the value is then the trimmed prompt; a
    prompt of white space only is transmitted like an absent one; and
    preview_only is supplied as false and transmitted as "false". *)
Theorem handleProcess_prompt_trimmed (st : FileUpload.State)
    (u : FileUpload.UploadedFile) :
  FileUpload.uploadedFile st = Some u ->
  exists request fd,
    FileUpload.handleProcess_request st = Some request /\
    snd (FileUpload.handleProcess st)
    = [FileUpload.Network (Api.processDocument request)] /\
    Api.method (Api.processDocument request) = Api.POST /\
    Api.url (Api.processDocument request) = "/redact" /\
    Api.body (Api.processDocument request) = Api.Multipart fd /\
    fd = Api.processDocument_form request /\
    req_file request = FileUpload.file u /\
    Api.get "file" fd = Some (Api.FileValue (FileUpload.file u)) /\
    (req_prompt request <> None <-> JS.trim (FileUpload.prompt st) <> EmptyString) /\
    (JS.trim (FileUpload.prompt st) <> EmptyString ->
     req_prompt request = Some (JS.trim (FileUpload.prompt st)) /\
     Api.get "prompt" fd
     = Some (Api.StringValue (JS.trim (FileUpload.prompt st)))) /\
    (Api.has "prompt" fd = true <->
     JS.trim (FileUpload.prompt st) <> EmptyString) /\
    (JS.all_white (FileUpload.prompt st) = true ->
     Api.body (Api.processDocument request)
     = Api.body (Api.processDocument
                   {| req_file := FileUpload.file u; req_prompt := None;
                      req_preview_only := Some false |})) /\
    req_preview_only request = Some false /\
    Api.get "preview_only" fd = Some (Api.StringValue "false").
Proof.
  intros Hu.
  unfold FileUpload.handleProcess, FileUpload.handleProcess_request.
  rewrite Hu. eexists. eexists.
  split; [reflexivity|]. split; [reflexivity|].
  split; [reflexivity|]. split; [reflexivity|].
  split; [reflexivity|]. split; [reflexivity|].
  cbn [req_file req_prompt req_preview_only Api.body Api.processDocument].
  split; [reflexivity|].
  unfold Api.processDocument_form; cbn [req_file req_prompt req_preview_only].
  rewrite <- trim_empty_iff.
  destruct (or_undefined_spec (JS.trim (FileUpload.prompt st)))
    as [[E ->]|[E ->]].
  - rewrite E. cbn. repeat split; try congruence; try discriminate.
    all: intros H; exfalso; now apply H.
  - destruct (truthy_spec (JS.trim (FileUpload.prompt st)))
      as [[-> _]|[_ E']]; [|contradiction].
    rewrite !has_append, !get_append. cbn.
    repeat split; try congruence; try discriminate.
Qed.

Lemma handleProcess_prompt_trimmed_witness :
  exists request,
    FileUpload.handleProcess_request
      {| FileUpload.uploadedFile :=
           Some {| FileUpload.file := sample_file; FileUpload.id := "k3x9q0a1z" |};
         FileUpload.prompt := "  Redact SSN only ";
         FileUpload.jobId := None; FileUpload.isPending := false;
         FileUpload.jobStatus := Query.initial |} = Some request /\
    req_prompt request = Some "Redact SSN only".
Proof.
  destruct (handleProcess_prompt_trimmed
              {| FileUpload.uploadedFile :=
                   Some {| FileUpload.file := sample_file;
                           FileUpload.id := "k3x9q0a1z" |};
                 FileUpload.prompt := "  Redact SSN only ";
                 FileUpload.jobId := None; FileUpload.isPending := false;
                 FileUpload.jobStatus := Query.initial |}
              _ eq_refl)
    as (request & fd & Hr & _ & _ & _ & _ & _ & _ & _ & _ & Hp & _).
  exists request. split; [exact Hr|].
  apply Hp. discriminate.
Defined.

(** ** Upload validation *)

Lemma includes_allowedTypes (t : string) :
  FileUpload.includes FileUpload.allowedTypes t
  = match FileUpload.mime_kind t with Some _ => true | None => false end.
Proof.
  unfold FileUpload.includes, FileUpload.allowedTypes, FileUpload.mime_kind.
  cbn [existsb].
  rewrite !(String.eqb_sym _ t).
  repeat match goal with
         | |- context [(t =? ?c)%string] => destruct (t =? c)%string; cbn
         end; reflexivity.
Qed.

Lemma maxSize_bytes : FileUpload.maxSize = 52428800.
Proof. reflexivity. Qed.

Definition with_upload (st : FileUpload.State) (f : File) (random_id : string)
  : FileUpload.State :=
  {| FileUpload.uploadedFile :=
       Some {| FileUpload.file := f; FileUpload.id := random_id |};
     FileUpload.prompt := FileUpload.prompt st;
     FileUpload.jobId := FileUpload.jobId st;
     FileUpload.isPending := FileUpload.isPending st;
     FileUpload.jobStatus := FileUpload.jobStatus st |}.

(** C3: the rules are checked in order and the first violation wins.  A
    file of more than 52,428,800 bytes is rejected with the file-too-large
    message whatever its type; otherwise a file whose declared MIME type is
    not plain text, PDF, Word-processing document, PNG or JPEG is rejected
    with the unsupported-type message; otherwise the file is accepted and
    stored with the locally generated identifier. *)
Theorem onDrop_validates (st : FileUpload.State) (f : File)
    (rest : list File) (random_id : string) :
  (52428800 < file_size f ->
   FileUpload.onDrop (f :: rest) random_id st
   = (st, [FileUpload.ToastError "File size must be less than 50MB"])) /\
  (file_size f <= 52428800 -> FileUpload.mime_kind (file_type f) = None ->
   FileUpload.onDrop (f :: rest) random_id st
   = (st, [FileUpload.ToastError
             "Unsupported file type. Please upload .txt, .pdf, .docx, or image files."])) /\
  (file_size f <= 52428800 -> FileUpload.mime_kind (file_type f) <> None ->
   exists msg,
     FileUpload.onDrop (f :: rest) random_id st
     = (with_upload st f random_id, [FileUpload.ToastSuccess msg])).
Proof.
  unfold FileUpload.onDrop. rewrite includes_allowedTypes, maxSize_bytes.
  repeat split.
  - intros H. apply Z.ltb_lt in H. now rewrite H.
  - intros H K. apply Z.ltb_ge in H. now rewrite H, K.
  - intros H K. apply Z.ltb_ge in H. rewrite H.
    destruct (FileUpload.mime_kind (file_type f)); [|contradiction].
    eexists. reflexivity.
Qed.

Definition huge_pdf : File :=
  {| file_name := "scan.pdf"; file_size := 52428801;
     file_type := "application/pdf" |}.

Definition archive : File :=
  {| file_name := "data.zip"; file_size := 2048;
     file_type := "application/zip" |}.

Definition limit_text : File :=
  {| file_name := "notes.txt"; file_size := 52428800;
     file_type := "text/plain" |}.

Lemma onDrop_validates_witness :
  FileUpload.onDrop [huge_pdf] "k3x9q0a1z" FileUpload.initial
  = (FileUpload.initial,
     [FileUpload.ToastError "File size must be less than 50MB"]) /\
  FileUpload.onDrop [archive] "k3x9q0a1z" FileUpload.initial
  = (FileUpload.initial,
     [FileUpload.ToastError
        "Unsupported file type. Please upload .txt, .pdf, .docx, or image files."]) /\
  exists msg,
    FileUpload.onDrop [limit_text] "k3x9q0a1z" FileUpload.initial
    = (with_upload FileUpload.initial limit_text "k3x9q0a1z",
       [FileUpload.ToastSuccess msg]).
Proof.
  split; [|split].
  - apply (onDrop_validates FileUpload.initial huge_pdf [] "k3x9q0a1z").
    reflexivity.
  - apply (onDrop_validates FileUpload.initial archive [] "k3x9q0a1z").
    + discriminate.
    + reflexivity.
  - apply (onDrop_validates FileUpload.initial limit_text [] "k3x9q0a1z").
    + discriminate.
    + discriminate.
Defined.

(** ** Rejected files and the network *)

(** A file the validator turns away: too large, or of a type outside the
    allow-list. *)
Definition rejected (f : File) : Prop :=
  52428800 < file_size f \/ FileUpload.mime_kind (file_type f) = None.

(** The component before any file was accepted; the prompt is free. *)
Definition pristine (st : FileUpload.State) : Prop :=
  FileUpload.uploadedFile st = None /\
  FileUpload.jobId st = None /\
  FileUpload.isPending st = false /\
  FileUpload.jobStatus st = Query.initial.

Lemma network_app (a b : list FileUpload.Effect) :
  FileUpload.network (a ++ b)
  = (FileUpload.network a ++ FileUpload.network b)%list.
Proof.
  induction a as [|e a IH]; [reflexivity|].
  destruct e; cbn; now rewrite IH.
Qed.

Lemma onDrop_rejected (st : FileUpload.State) (f : File) (rest : list File)
    (random_id : string) :
  rejected f ->
  exists msg,
    FileUpload.onDrop (f :: rest) random_id st = (st, [FileUpload.ToastError msg]).
Proof.
  intros [H|H]; unfold FileUpload.onDrop;
    rewrite includes_allowedTypes, maxSize_bytes.
  - apply Z.ltb_lt in H. rewrite H. eexists; reflexivity.
  - rewrite H. destruct (52428800 <? file_size f); eexists; reflexivity.
Qed.

Lemma step_pristine (st : FileUpload.State) (ev : FileUpload.Event) :
  pristine st ->
  (forall f, FileUpload.dropped ev = Some f -> rejected f) ->
  pristine (fst (FileUpload.step st ev)) /\
  FileUpload.network (snd (FileUpload.step st ev)) = [].
Proof.
  intros (Hu & Hj & Hp & Hs) Hdrop.
  destruct ev as [files rid | v | | outcome | url outcome | | pev]; cbn.
  - destruct files as [|f rest].
    + cbn. repeat split; assumption.
    + destruct (onDrop_rejected st f rest rid (Hdrop f eq_refl)) as [msg ->].
      cbn. repeat split; assumption.
  - repeat split; assumption.
  - unfold FileUpload.handleProcess, FileUpload.handleProcess_request.
    rewrite Hu. cbn. repeat split; assumption.
  - unfold FileUpload.handleProcess_settled. rewrite Hp.
    cbn. repeat split; assumption.
  - unfold FileUpload.handleDownload. rewrite Hj.
    cbn. repeat split; assumption.
  - unfold FileUpload.handleReset, FileUpload.setJobId. rewrite Hj.
    cbn. repeat split; assumption.
  - unfold FileUpload.poll. rewrite Hj, Hs.
    destruct pev; cbn; repeat split; assumption.
Qed.

Lemma run_pristine (evs : list FileUpload.Event) :
  forall st,
    pristine st ->
    (forall ev f, In ev evs -> FileUpload.dropped ev = Some f -> rejected f) ->
    pristine (fst (FileUpload.run st evs)) /\
    FileUpload.network (snd (FileUpload.run st evs)) = [].
Proof.
  induction evs as [|ev evs IH]; intros st Hst Hdrop.
  - cbn. split; [assumption | reflexivity].
  - cbn [FileUpload.run].
    destruct (step_pristine st ev Hst) as [H1 N1].
    { intros f. apply Hdrop. now left. }
    destruct (FileUpload.step st ev) as [st1 e1]. cbn [fst snd] in H1, N1.
    destruct (IH st1 H1) as [H2 N2].
    { intros ev' f Hin. apply Hdrop. now right. }
    destruct (FileUpload.run st1 evs) as [st2 e2]. cbn [fst snd] in *.
    split; [assumption|]. now rewrite network_app, N1, N2.
Qed.

(** A file that passes both rules. *)
Definition accepted (f : File) : Prop :=
  file_size f <= 52428800 /\ FileUpload.mime_kind (file_type f) <> None.

Definition upload_valid (st : FileUpload.State) : Prop :=
  forall u, FileUpload.uploadedFile st = Some u -> accepted (FileUpload.file u).

(** A request that, if it transmits a form, transmits an accepted file. *)
Definition carries_accepted (r : Api.Request) : Prop :=
  forall fd, Api.body r = Api.Multipart fd ->
             exists f, Api.get "file" fd = Some (Api.FileValue f) /\ accepted f.

Section PollerActions.

Variables D E : Type.
Variable o : Query.Options D.

Definition from_query (a : Query.Action) : Prop :=
  a = Query.Issue (Query.queryFn o) \/ exists ms, a = Query.Schedule ms.

Lemma scheduleActions_from_query (t : option Z) :
  Forall from_query (Query.scheduleActions t).
Proof.
  destruct t; cbn; constructor; [right; eexists; reflexivity | constructor].
Qed.

Lemma startFetch_from_query (st : Query.Observer D E) :
  Forall from_query (snd (Query.startFetch D E o st)).
Proof. cbn. constructor; [left; reflexivity | constructor]. Qed.

Lemma mount_from_query :
  Forall from_query (snd (Query.mount (E := E) o)).
Proof.
  unfold Query.mount. destruct (Query.enabled o).
  - apply startFetch_from_query.
  - constructor.
Qed.

Lemma step_from_query (st : Query.Observer D E) (ev : Query.Event D E) :
  Forall from_query (snd (Query.step o st ev)).
Proof.
  destruct ev as [d|e|]; unfold Query.step.
  - destruct (Query.fetchStatus st); cbn [snd];
      [constructor | apply scheduleActions_from_query].
  - destruct (Query.fetchStatus st); cbn [snd]; [constructor|].
    destruct (Query.failureCount st <? Query.retry o)%nat; cbn [snd].
    + constructor; [left; reflexivity | constructor].
    + apply scheduleActions_from_query.
  - destruct (Query.timer st); [|constructor].
    destruct (Query.fetchStatus st); [|constructor].
    destruct (Query.enabled o); [apply startFetch_from_query | constructor].
Qed.

Lemma network_from_query (acts : list Query.Action) :
  Forall from_query acts ->
  Forall (eq (Query.queryFn o))
         (FileUpload.network (map FileUpload.pollerEffect acts)).
Proof.
  induction 1 as [|a acts [->|[ms ->]] _ IH]; cbn.
  - constructor.
  - constructor; [reflexivity | exact IH].
  - exact IH.
Qed.

End PollerActions.

Lemma status_request_carries (j : option string) :
  carries_accepted (Query.queryFn (FileUpload.pollerOptions j)).
Proof. intros fd H. discriminate H. Qed.

Lemma poller_network_carries (j : option string) (acts : list Query.Action) :
  Forall (from_query _ (FileUpload.pollerOptions j)) acts ->
  Forall carries_accepted
         (FileUpload.network (map FileUpload.pollerEffect acts)).
Proof.
  intros H. apply network_from_query in H.
  eapply Forall_impl; [|exact H].
  intros r <-. apply status_request_carries.
Qed.

Lemma form_file (request : RedactionRequest) :
  Api.get "file" (Api.processDocument_form request)
  = Some (Api.FileValue (req_file request)).
Proof.
  unfold Api.processDocument_form.
  destruct (req_prompt request) as [p|]; [destruct (JS.truthy p)|];
    destruct (req_preview_only request);
    rewrite ?get_append; reflexivity.
Qed.

Lemma onDrop_upload_valid (st : FileUpload.State) (files : list File)
    (random_id : string) :
  upload_valid st ->
  upload_valid (fst (FileUpload.onDrop files random_id st)) /\
  FileUpload.network (snd (FileUpload.onDrop files random_id st)) = [].
Proof.
  intros Hv. unfold FileUpload.onDrop.
  destruct files as [|f rest]; [split; [exact Hv | reflexivity]|].
  rewrite includes_allowedTypes, maxSize_bytes.
  destruct (Z.ltb_spec 52428800 (file_size f)) as [Hs|Hs];
    [split; [exact Hv | reflexivity]|].
  destruct (FileUpload.mime_kind (file_type f)) eqn:Hk; cbn;
    [|split; [exact Hv | reflexivity]].
  split; [|reflexivity].
  intros u Hu. injection Hu as <-. cbn. split; [exact Hs|].
  rewrite Hk. discriminate.
Qed.

Lemma setJobId_upload_valid (j : option string) (st : FileUpload.State) :
  upload_valid st ->
  upload_valid (fst (FileUpload.setJobId j st)) /\
  Forall carries_accepted (FileUpload.network (snd (FileUpload.setJobId j st))).
Proof.
  intros Hv. unfold FileUpload.setJobId.
  destruct (FileUpload.option_string_eqb j (FileUpload.jobId st));
    [split; [exact Hv | constructor]|].
  pose proof (mount_from_query _ Api.CustomError (FileUpload.pollerOptions j)) as Hm.
  destruct (Query.mount (FileUpload.pollerOptions j)) as [p acts].
  cbn [fst snd] in *. split; [exact Hv|].
  now apply poller_network_carries with (j := j).
Qed.

Lemma step_upload_valid (st : FileUpload.State) (ev : FileUpload.Event) :
  upload_valid st ->
  upload_valid (fst (FileUpload.step st ev)) /\
  Forall carries_accepted (FileUpload.network (snd (FileUpload.step st ev))).
Proof.
  intros Hv.
  destruct ev as [files rid | v | | outcome | url outcome | | pev]; cbn.
  - destruct (onDrop_upload_valid st files rid Hv) as [H ->].
    split; [exact H | constructor].
  - split; [exact Hv | constructor].
  - unfold FileUpload.handleProcess, FileUpload.handleProcess_request.
    destruct (FileUpload.uploadedFile st) as [u|] eqn:Hu; cbn.
    + split; [intros u' Hu'; cbn in Hu'; apply Hv; congruence|].
      constructor; [|constructor].
      intros fd Hfd. injection Hfd as <-.
      eexists. split; [apply form_file|]. cbn. now apply Hv.
    + split; [exact Hv | constructor].
  - unfold FileUpload.handleProcess_settled.
    destruct (FileUpload.isPending st); [|split; [exact Hv | constructor]].
    destruct outcome as [res|err]; [|split; [exact Hv | constructor]].
    match goal with
    | |- context [FileUpload.setJobId ?j ?s] =>
        destruct (setJobId_upload_valid j s Hv) as [H1 H2];
        destruct (FileUpload.setJobId j s) as [st' effs]
    end.
    cbn [fst snd] in *. split; [exact H1|].
    cbn [FileUpload.network]. exact H2.
  - unfold FileUpload.handleDownload.
    destruct (FileUpload.jobId st) as [j|]; [|split; [exact Hv | constructor]].
    destruct (JS.truthy j); [|split; [exact Hv | constructor]].
    destruct outcome as [blob|err]; cbn; (split; [exact Hv|]);
      (constructor; [intros fd H; discriminate H | constructor]).
  - unfold FileUpload.handleReset.
    destruct (setJobId_upload_valid None st Hv) as [H1 H2].
    destruct (FileUpload.setJobId None st) as [st' effs].
    cbn [fst snd] in *. split; [|exact H2].
    intros u Hu. discriminate Hu.
  - unfold FileUpload.poll.
    pose proof (step_from_query _ _ (FileUpload.pollerOptions (FileUpload.jobId st))
                  (FileUpload.jobStatus st) pev) as Hq.
    destruct (Query.step (FileUpload.pollerOptions (FileUpload.jobId st))
                (FileUpload.jobStatus st) pev) as [p acts].
    cbn [fst snd] in *. split; [exact Hv|].
    now apply poller_network_carries with (j := FileUpload.jobId st).
Qed.

Lemma run_upload_valid (evs : list FileUpload.Event) :
  forall st,
    upload_valid st ->
    Forall carries_accepted (FileUpload.network (snd (FileUpload.run st evs))).
Proof.
  induction evs as [|ev evs IH]; intros st Hv; [constructor|].
  cbn [FileUpload.run].
  destruct (step_upload_valid st ev Hv) as [H1 N1].
  destruct (FileUpload.step st ev) as [st1 e1]. cbn [fst snd] in *.
  specialize (IH st1 H1).
  destruct (FileUpload.run st1 evs) as [st2 e2]. cbn [fst snd] in *.
  rewrite network_app. apply Forall_app. split; assumption.
Qed.

Lemma accepted_not_rejected (f : File) : accepted f -> ~ rejected f.
Proof. intros [Hs Hk] [H|H]; [lia | contradiction]. Qed.

(** C6: a file over 50 MiB or of a type outside the allowed set is turned
    away locally: the drop leaves the component as it was and issues no
    request; as long as only such files are offered no request at all
    (upload, submission, status or download) is issued, whatever else the
    user does; and in every session, a form that is transmitted never
    carries such a file. *)
Theorem rejected_file_no_network :
  (forall st f rest random_id,
      rejected f ->
      fst (FileUpload.onDrop (f :: rest) random_id st) = st /\
      FileUpload.network (snd (FileUpload.onDrop (f :: rest) random_id st)) = []) /\
  (forall evs,
      (forall ev f, In ev evs -> FileUpload.dropped ev = Some f -> rejected f) ->
      FileUpload.uploadedFile (fst (FileUpload.run FileUpload.initial evs)) = None /\
      FileUpload.network (snd (FileUpload.run FileUpload.initial evs)) = []) /\
  (forall evs r fd f,
      In r (FileUpload.network (snd (FileUpload.run FileUpload.initial evs))) ->
      Api.body r = Api.Multipart fd ->
      Api.get "file" fd = Some (Api.FileValue f) ->
      ~ rejected f).
Proof.
  split; [|split].
  - intros st f rest rid Hr.
    destruct (onDrop_rejected st f rest rid Hr) as [msg ->].
    split; reflexivity.
  - intros evs Hdrop.
    destruct (run_pristine evs FileUpload.initial) as [(Hu & _) Hn].
    + repeat split.
    + exact Hdrop.
    + split; assumption.
  - intros evs r fd f Hin Hb Hf.
    assert (Hv : upload_valid FileUpload.initial)
      by (intros u Hu; discriminate Hu).
    pose proof (run_upload_valid evs FileUpload.initial Hv) as Hall.
    rewrite Forall_forall in Hall.
    destruct (Hall r Hin fd Hb) as (g & Hg & Hacc).
    apply accepted_not_rejected. congruence.
Qed.

Definition rejected_session : list FileUpload.Event :=
  [ FileUpload.Drop [huge_pdf] "k3x9q0a1z";
    FileUpload.SetPrompt "Redact SSN only";
    FileUpload.ProcessClick;
    FileUpload.Drop [archive] "p0o9i8u7y";
    FileUpload.ProcessClick;
    FileUpload.Poll Query.TimerFire;
    FileUpload.DownloadClick "blob:1" (inl []) ].

Lemma rejected_session_drops (ev : FileUpload.Event) (f : File) :
  In ev rejected_session -> FileUpload.dropped ev = Some f -> rejected f.
Proof.
  unfold rejected_session. cbn [In].
  intros [<-|[<-|[<-|[<-|[<-|[<-|[<-|[]]]]]]]]; cbn; intros E;
    try discriminate E; injection E as <-.
  - left. reflexivity.
  - right. reflexivity.
Defined.

Lemma rejected_file_no_network_witness :
  FileUpload.network (snd (FileUpload.run FileUpload.initial rejected_session)) = [] /\
  fst (FileUpload.onDrop [huge_pdf] "k3x9q0a1z" FileUpload.initial)
  = FileUpload.initial.
Proof.
  split.
  - apply (proj1 (proj2 rejected_file_no_network) rejected_session).
    exact rejected_session_drops.
  - apply (proj1 rejected_file_no_network FileUpload.initial huge_pdf []).
    left. reflexivity.
Defined.

(** ** The job poller *)

Definition JobPoller := Query.Observer JobStatusResponse Api.CustomError.

Lemma useJobStatus_enabled (jobId : option string) (flag : option bool) :
  Query.enabled (Hooks.useJobStatus jobId flag)
  = match flag with Some b => b | None => true end && JS.truthy_opt jobId.
Proof. reflexivity. Qed.

Lemma useJobStatus_disabled (jobId : option string) (flag : option bool) :
  jobId = None \/ jobId = Some EmptyString \/ flag = Some false ->
  Query.enabled (Hooks.useJobStatus jobId flag) = false.
Proof.
  rewrite useJobStatus_enabled.
  intros [-> | [-> | ->]]; cbn; [apply andb_false_r | apply andb_false_r | reflexivity].
Qed.

(** An observer that is idle and holds no timer ignores every event. *)
Lemma run_quiescent {D E : Type} (o : Query.Options D)
    (st : Query.Observer D E) (evs : list (Query.Event D E)) :
  Query.fetchStatus st = Query.idle ->
  Query.timer st = None ->
  Query.run o st evs = (st, []).
Proof.
  intros Hf Ht. induction evs as [|ev evs IH]; [reflexivity|].
  cbn [Query.run].
  assert (Hs : Query.step o st ev = (st, [])).
  { destruct ev; unfold Query.step; rewrite ?Hf, ?Ht; reflexivity. }
  rewrite Hs, IH. reflexivity.
Qed.

Lemma refetchInterval_always (query : Query.QueryObject JobStatusResponse) :
  Hooks.refetchInterval query = Some 2000.
Proof. reflexivity. Qed.

(** C2 does not hold of the code.  The callback tests the property
    [status] of the query object it is handed, which does not exist, so
    it answers 2000 for every response: while a job id is polled, every
    status response, also one that reports completed or failed, is stored,
    arms the timer for 2000 ms, and the timer going off issues the next
    status query for the same job id. *)
Theorem poll_goes_on_after_terminal (j : string) (flag : option bool)
    (st : JobPoller) (d : JobStatusResponse) :
  let o := Hooks.useJobStatus (Some j) flag in
  Query.enabled o = true ->
  Query.fetchStatus st = Query.fetching ->
  let st' := fst (Query.step o st (Query.Resolve d)) in
  Query.data st' = Some d /\
  snd (Query.step o st (Query.Resolve d)) = [Query.Schedule 2000] /\
  Query.timer st' = Some 2000 /\
  Query.fetchStatus st' = Query.idle /\
  snd (Query.step o st' Query.TimerFire) = [Query.Issue (Api.getJobStatus j)] /\
  Query.fetchStatus (fst (Query.step o st' Query.TimerFire)) = Query.fetching.
Proof.
  intros o Hen Hf st'. subst st'.
  assert (Hr : Query.step o st (Query.Resolve d)
               = ({| Query.data := Some d; Query.error := None;
                     Query.fetchStatus := Query.idle;
                     Query.failureCount := 0; Query.timer := Some 2000 |},
                  [Query.Schedule 2000])).
  { unfold Query.step, Query.nextTimer. rewrite Hf, Hen.
    change (Query.refetchInterval o) with Hooks.refetchInterval.
    now rewrite refetchInterval_always. }
  rewrite Hr. cbn [fst snd Query.data Query.timer Query.fetchStatus Query.step
                   Query.startFetch].
  rewrite Hen. repeat split.
Qed.

Definition polling_snapshot : JobStatusResponse :=
  {| job_id := "job-123"; status := processing; progress := 40;
     result := None; error := None |}.

Definition completed_snapshot : JobStatusResponse :=
  {| job_id := "job-123"; status := completed; progress := 100;
     result := Some {| redacted_file_url := Some "/download/job-123";
                       preview_text := None; entities_detected := 3 |};
     error := None |}.

Lemma poll_goes_on_after_terminal_witness :
  snd (Query.step (Hooks.useJobStatus (Some "job-123") None)
         (fst (Query.mount (E := Api.CustomError)
                 (Hooks.useJobStatus (Some "job-123") None)))
         (Query.Resolve completed_snapshot))
  = [Query.Schedule 2000] /\
  snd (Query.step (Hooks.useJobStatus (Some "job-123") None)
         (fst (Query.step (Hooks.useJobStatus (Some "job-123") None)
                 (fst (Query.mount (E := Api.CustomError)
                         (Hooks.useJobStatus (Some "job-123") None)))
                 (Query.Resolve completed_snapshot)))
         Query.TimerFire)
  = [Query.Issue (Api.getJobStatus "job-123")].
Proof.
  destruct (poll_goes_on_after_terminal "job-123" None
              (fst (Query.mount (Hooks.useJobStatus (Some "job-123") None)))
              completed_snapshot eq_refl eq_refl)
    as (_ & H1 & _ & _ & H2 & _).
  split; assumption.
Defined.

(** Under disabled options no step schedules anything, and a snapshot that
    is held is never dropped. *)
Lemma step_disabled {D E : Type} (o : Query.Options D)
    (st : Query.Observer D E) (ev : Query.Event D E) :
  Query.enabled o = false ->
  (forall ms, ~ In (Query.Schedule ms) (snd (Query.step o st ev))) /\
  (Query.data st <> None -> Query.data (fst (Query.step o st ev)) <> None) /\
  (Query.timer st = None -> Query.timer (fst (Query.step o st ev)) = None).
Proof.
  intros Hen. unfold Query.step, Query.nextTimer. rewrite Hen.
  destruct ev as [d|e|].
  - destruct (Query.fetchStatus st); cbn; repeat split; auto; discriminate.
  - destruct (Query.fetchStatus st); cbn [fst snd]; [cbn; auto|].
    destruct (Query.failureCount st <? Query.retry o)%nat; cbn.
    + repeat split; auto. intros ms [H|[]]. discriminate H.
    + repeat split; auto.
  - destruct (Query.timer st) eqn:Ht, (Query.fetchStatus st); cbn;
      repeat split; auto; congruence.
Qed.

Lemma run_disabled {D E : Type} (o : Query.Options D)
    (evs : list (Query.Event D E)) :
  Query.enabled o = false ->
  forall st,
    Query.timer st = None ->
    Query.data st <> None ->
    Query.data (fst (Query.run o st evs)) <> None /\
    (forall ms, ~ In (Query.Schedule ms) (snd (Query.run o st evs))).
Proof.
  intros Hen. induction evs as [|ev evs IH]; intros st Ht Hd.
  - cbn. auto.
  - cbn [Query.run].
    destruct (step_disabled o st ev Hen) as (Hs & Hk & Hn).
    destruct (Query.step o st ev) as [st1 a1]. cbn [fst snd] in *.
    destruct (IH st1 (Hn Ht) (Hk Hd)) as [Hd2 Hs2].
    destruct (Query.run o st1 evs) as [st2 a2]. cbn [fst snd] in *.
    split; [exact Hd2|].
    intros ms Hin. apply in_app_or in Hin. destruct Hin as [Hin|Hin].
    + exact (Hs ms Hin).
    + exact (Hs2 ms Hin).
Qed.



(** A status query that got no response at all, as the interceptor
    reports it. *)
Definition network_error : Api.CustomError :=
  Api.onRejected {| Api.err_response := None;
                    Api.err_message := "Network Error" |}.

Definition job123 := Hooks.useJobStatus (Some "job-123") None.

(** C5, as stated, fails: after the third consecutive failure the poller
    is not in the failed state; it has stored no error and is fetching
    again, having issued the third retry. *)
Lemma third_failure_is_retried :
  let st0 := fst (Query.mount job123) in
  let r := Query.run job123 st0
             [Query.Reject network_error; Query.Reject network_error;
              Query.Reject network_error] in
  Query.error (fst r) = None /\
  Query.fetchStatus (fst r) = Query.fetching /\
  Query.failureCount (fst r) = 3%nat /\
  snd r = [Query.Issue (Api.getJobStatus "job-123");
           Query.Issue (Api.getJobStatus "job-123");
           Query.Issue (Api.getJobStatus "job-123")].
Proof. repeat split. Qed.

Lemma mount_enabled {D E : Type} (o : Query.Options D) :
  Query.enabled o = true ->
  Query.mount (E := E) o
  = ({| Query.data := None; Query.error := None;
        Query.fetchStatus := Query.fetching;
        Query.failureCount := 0; Query.timer := None |},
     [Query.Issue (Query.queryFn o)]).
Proof. intros H. unfold Query.mount. now rewrite H. Qed.

Lemma step_reject_retry {D E : Type} (o : Query.Options D)
    (st : Query.Observer D E) (e : E) :
  Query.fetchStatus st = Query.fetching ->
  (Query.failureCount st <? Query.retry o)%nat = true ->
  Query.step o st (Query.Reject e)
  = ({| Query.data := Query.data st; Query.error := Query.error st;
        Query.fetchStatus := Query.fetching;
        Query.failureCount := S (Query.failureCount st);
        Query.timer := Query.timer st |},
     [Query.Issue (Query.queryFn o)]).
Proof. intros Hf Hr. unfold Query.step. now rewrite Hf, Hr. Qed.

Lemma step_reject_final {D E : Type} (o : Query.Options D)
    (st : Query.Observer D E) (e : E) :
  Query.fetchStatus st = Query.fetching ->
  (Query.failureCount st <? Query.retry o)%nat = false ->
  Query.step o st (Query.Reject e)
  = ({| Query.data := Query.data st; Query.error := Some e;
        Query.fetchStatus := Query.idle;
        Query.failureCount := S (Query.failureCount st);
        Query.timer :=
          Query.nextTimer D o
            {| Query.state_data := Query.data st;
               Query.state_status := Query.query_error;
               Query.state_fetchStatus := Query.idle |} |},
     Query.scheduleActions
       (Query.nextTimer D o
          {| Query.state_data := Query.data st;
             Query.state_status := Query.query_error;
             Query.state_fetchStatus := Query.idle |})).
Proof. intros Hf Hr. unfold Query.step. now rewrite Hf, Hr. Qed.

(** C5 (amended): a status query that fails at the transport level is
    retried up to 3 times: each of the first three consecutive failures is
    answered by a new query.  When the third retry fails too (the fourth
    consecutive failure) the poller stores that transport error, stops
    fetching and issues no further retry for that attempt. *)
Theorem retries_then_failed (j : string) (flag : option bool)
    (e1 e2 e3 e4 : Api.CustomError) :
  let o := Hooks.useJobStatus (Some j) flag in
  Query.enabled o = true ->
  let st0 := fst (Query.mount (E := Api.CustomError) o) in
  let r3 := Query.run o st0 [Query.Reject e1; Query.Reject e2; Query.Reject e3] in
  let r4 := Query.step o (fst r3) (Query.Reject e4) in
  snd (Query.mount (E := Api.CustomError) o) = [Query.Issue (Api.getJobStatus j)] /\
  snd r3 = [Query.Issue (Api.getJobStatus j); Query.Issue (Api.getJobStatus j);
            Query.Issue (Api.getJobStatus j)] /\
  Query.error (fst r3) = None /\
  Query.fetchStatus (fst r3) = Query.fetching /\
  Query.error (fst r4) = Some e4 /\
  Query.fetchStatus (fst r4) = Query.idle /\
  Query.issued (snd r4) = [] /\
  (forall e5, snd (Query.step o (fst r4) (Query.Reject e5)) = []) /\
  (forall d, Query.data (fst (Query.step o (fst r3) (Query.Resolve d))) = Some d /\
             Query.error (fst (Query.step o (fst r3) (Query.Resolve d))) = None).
Proof.
  intros o Hen st0 r3 r4. subst st0 r3 r4.
  rewrite (mount_enabled o Hen). cbn [fst snd Query.run].
  rewrite !step_reject_retry by reflexivity. cbn [fst snd app].
  rewrite step_reject_final by reflexivity.
  unfold Query.nextTimer. rewrite Hen. cbn.
  repeat split.
Qed.

Lemma retries_then_failed_witness :
  Query.error
    (fst (Query.step job123
            (fst (Query.run job123 (fst (Query.mount job123))
                    [Query.Reject network_error; Query.Reject network_error;
                     Query.Reject network_error]))
            (Query.Reject network_error)))
  = Some network_error.
Proof.
  apply (retries_then_failed "job-123" None network_error network_error
           network_error network_error eq_refl).
Defined.

(** ** The prompt analyzer *)

Section PromptAnalyzer.

Variable H : Type.
Variable mutate : AnalyzePromptRequest -> H -> H.

Local Abbreviation NLState := (NaturalLanguageInput.State H).
Local Abbreviation nl_step := (NaturalLanguageInput.step H mutate).
Local Abbreviation nl_run := (NaturalLanguageInput.run H mutate).
Local Abbreviation nl_mount := (NaturalLanguageInput.mount H mutate).

(** The pending timer always holds the current value and is due 500 ms
    after that value was entered. *)
Definition armed (st : NLState) : Prop :=
  forall t, NaturalLanguageInput.handler st = Some t ->
            NaturalLanguageInput.captured t = NaturalLanguageInput.value st /\
            NaturalLanguageInput.due t = NaturalLanguageInput.changedAt st + 500.

Lemma analyze_effect_long (v : string) (h : H) :
  (3 < String.length (JS.trim v))%nat ->
  NaturalLanguageInput.analyze_effect H mutate v h
  = (mutate {| ap_prompt := v |} h, [{| ap_prompt := v |}]).
Proof.
  intros L. unfold NaturalLanguageInput.analyze_effect.
  apply Nat.ltb_lt in L. now rewrite L.
Qed.

Lemma analyze_effect_short (v : string) (h : H) :
  (String.length (JS.trim v) <= 3)%nat ->
  NaturalLanguageInput.analyze_effect H mutate v h = (h, []).
Proof.
  intros L. unfold NaturalLanguageInput.analyze_effect.
  apply Nat.ltb_ge in L. now rewrite L.
Qed.

Lemma mount_armed (now : Z) (v : string) (h : H) :
  armed (fst (nl_mount now v h)).
Proof.
  unfold NaturalLanguageInput.mount.
  destruct (NaturalLanguageInput.analyze_effect H mutate v h) as [h' calls].
  intros t Ht. cbn in Ht. injection Ht as <-. cbn. split; reflexivity.
Qed.

Lemma step_armed (st : NLState) (ev : NaturalLanguageInput.Event) :
  armed st -> armed (fst (nl_step st ev)).
Proof.
  intros Ha. destruct ev as [now v | now]; cbn.
  - destruct (v =? NaturalLanguageInput.value st)%string; [exact Ha|].
    intros t Ht. cbn in Ht. injection Ht as <-. cbn. split; reflexivity.
  - destruct (NaturalLanguageInput.handler st) as [t|] eqn:Ht; [|exact Ha].
    destruct (NaturalLanguageInput.due t <=? now); [|exact Ha].
    destruct (NaturalLanguageInput.captured t
              =? NaturalLanguageInput.debouncedValue st)%string.
    + intros t' Ht'. discriminate Ht'.
    + destruct (NaturalLanguageInput.analyze_effect H mutate
                  (NaturalLanguageInput.captured t)
                  (NaturalLanguageInput.analyzePrompt st)) as [h' calls].
      intros t' Ht'. discriminate Ht'.
Qed.

Lemma run_armed (evs : list NaturalLanguageInput.Event) :
  forall st, armed st -> armed (fst (nl_run st evs)).
Proof.
  induction evs as [|ev evs IH]; intros st Ha; [exact Ha|].
  cbn [NaturalLanguageInput.run].
  pose proof (step_armed st ev Ha) as H1.
  destruct (nl_step st ev) as [st1 c1]. cbn [fst] in H1.
  specialize (IH st1 H1).
  destruct (nl_run st1 evs) as [st2 c2]. exact IH.
Qed.

Lemma reachable_armed (st : NLState) :
  NaturalLanguageInput.reachable H mutate st -> armed st.
Proof.
  intros (now & h & evs & ->). apply run_armed, mount_armed.
Qed.

(** What a step does when the timer goes off and the settled value
    differs from the one analysed last. *)
Lemma step_fire (st : NLState) (now : Z) :
  nl_step st (NaturalLanguageInput.Fire now)
  = match NaturalLanguageInput.handler st with
    | Some t =>
        if NaturalLanguageInput.due t <=? now then
          if (NaturalLanguageInput.captured t
              =? NaturalLanguageInput.debouncedValue st)%string
          then ({| NaturalLanguageInput.value := NaturalLanguageInput.value st;
                   NaturalLanguageInput.debouncedValue :=
                     NaturalLanguageInput.debouncedValue st;
                   NaturalLanguageInput.handler := None;
                   NaturalLanguageInput.changedAt :=
                     NaturalLanguageInput.changedAt st;
                   NaturalLanguageInput.analyzePrompt :=
                     NaturalLanguageInput.analyzePrompt st |}, [])
          else
            ({| NaturalLanguageInput.value := NaturalLanguageInput.value st;
                NaturalLanguageInput.debouncedValue :=
                  NaturalLanguageInput.captured t;
                NaturalLanguageInput.handler := None;
                NaturalLanguageInput.changedAt :=
                  NaturalLanguageInput.changedAt st;
                NaturalLanguageInput.analyzePrompt :=
                  fst (NaturalLanguageInput.analyze_effect H mutate
                         (NaturalLanguageInput.captured t)
                         (NaturalLanguageInput.analyzePrompt st)) |},
             snd (NaturalLanguageInput.analyze_effect H mutate
                    (NaturalLanguageInput.captured t)
                    (NaturalLanguageInput.analyzePrompt st)))
        else (st, [])
    | None => (st, [])
    end.
Proof.
  cbn. destruct (NaturalLanguageInput.handler st) as [t|]; [|reflexivity].
  destruct (NaturalLanguageInput.due t <=? now); [|reflexivity].
  destruct (_ =? _)%string; [reflexivity|].
  destruct (NaturalLanguageInput.analyze_effect _ _ _ _); reflexivity.
Qed.

(** C4: in the component as [FileUpload] mounts it, a step issues an
    analysis call only when the debounce timer goes off, for the current
    value, which was entered at least 500 ms earlier and whose trimmed
    length exceeds 3; while the current value has a trimmed length of at
    most 3, no step issues a call or touches the analysis held by the
    hook; mounting issues no call either. *)
Theorem analysis_only_for_settled_long_value (st : NLState)
    (ev : NaturalLanguageInput.Event) :
  NaturalLanguageInput.reachable H mutate st ->
  let st' := fst (nl_step st ev) in
  let calls := snd (nl_step st ev) in
  (forall request, In request calls ->
     exists now,
       ev = NaturalLanguageInput.Fire now /\
       ap_prompt request = NaturalLanguageInput.value st /\
       NaturalLanguageInput.changedAt st + 500 <= now /\
       (3 < String.length (JS.trim (ap_prompt request)))%nat /\
       calls = [request] /\
       NaturalLanguageInput.analyzePrompt st'
       = mutate request (NaturalLanguageInput.analyzePrompt st)) /\
  ((String.length (JS.trim (NaturalLanguageInput.value st)) <= 3)%nat ->
   calls = [] /\
   NaturalLanguageInput.analyzePrompt st' = NaturalLanguageInput.analyzePrompt st) /\
  (calls = [] ->
   NaturalLanguageInput.analyzePrompt st' = NaturalLanguageInput.analyzePrompt st) /\
  (forall now h, snd (nl_mount now EmptyString h) = [] /\
                 NaturalLanguageInput.analyzePrompt (fst (nl_mount now EmptyString h)) = h).
Proof.
  intros Hr st' calls. subst st' calls.
  apply reachable_armed in Hr.
  assert (Hmount : forall now h,
             snd (nl_mount now EmptyString h) = [] /\
             NaturalLanguageInput.analyzePrompt (fst (nl_mount now EmptyString h)) = h)
    by (intros; split; reflexivity).
  destruct ev as [now v | now].
  - cbn. destruct (v =? NaturalLanguageInput.value st)%string; cbn;
      repeat split; auto; intros ? [].
  - rewrite step_fire.
    destruct (NaturalLanguageInput.handler st) as [t|] eqn:Ht;
      [|cbn; repeat split; auto; intros ? []].
    destruct (Hr t Ht) as [Hc Hd].
    destruct (Z.leb_spec (NaturalLanguageInput.due t) now) as [Hdue|Hdue];
      [|cbn; repeat split; auto; intros ? []].
    destruct (_ =? _)%string; [cbn; repeat split; auto; intros ? []|].
    rewrite Hc. cbn [fst snd NaturalLanguageInput.analyzePrompt].
    destruct (Nat.ltb_spec 3 (String.length (JS.trim (NaturalLanguageInput.value st))))
      as [L|L].
    + rewrite (analyze_effect_long _ _ L). cbn [fst snd].
      repeat split; auto.
      * intros request [<-|[]]. exists now. cbn. repeat split; auto. lia.
      * lia.
      * lia.
      * discriminate.
    + rewrite (analyze_effect_short _ _ L). cbn [fst snd].
      repeat split; auto. intros ? [].
Qed.

End PromptAnalyzer.

(** A hook state that records the calls it was given, newest first. *)
Definition call_log := list AnalyzePromptRequest.

Definition typing_session : list NaturalLanguageInput.Event :=
  [ NaturalLanguageInput.Change 100 "Red";
    NaturalLanguageInput.Fire 700;
    NaturalLanguageInput.Change 900 "Redact SSN only";
    NaturalLanguageInput.Fire 1300 ].

Definition typed : NaturalLanguageInput.State call_log :=
  fst (NaturalLanguageInput.run call_log cons
         (fst (NaturalLanguageInput.mount call_log cons 0 EmptyString []))
         typing_session).

Example typing_session_is_silent :
  snd (NaturalLanguageInput.run call_log cons
         (fst (NaturalLanguageInput.mount call_log cons 0 EmptyString []))
         typing_session) = [] /\
  snd (NaturalLanguageInput.step call_log cons typed
         (NaturalLanguageInput.Fire 1399)) = [] /\
  snd (NaturalLanguageInput.step call_log cons typed
         (NaturalLanguageInput.Fire 1400))
  = [{| ap_prompt := "Redact SSN only" |}].
Proof. repeat split. Qed.

Lemma typed_reachable : NaturalLanguageInput.reachable call_log cons typed.
Proof. exists 0, [], typing_session. reflexivity. Defined.

Lemma analysis_only_for_settled_long_value_witness :
  exists now,
    NaturalLanguageInput.Fire 1400 = NaturalLanguageInput.Fire now /\
    NaturalLanguageInput.changedAt typed + 500 <= now.
Proof.
  destruct (analysis_only_for_settled_long_value call_log cons typed
              (NaturalLanguageInput.Fire 1400) typed_reachable)
    as (Hcall & _).
  destruct (Hcall {| ap_prompt := "Redact SSN only" |}) as (now & E & _ & Hq & _).
  - left. reflexivity.
  - exists now. split; assumption.
Defined.

(** * Further properties *)

(** ** Debouncing *)

Section Debounce.

Variable H : Type.
Variable mutate : AnalyzePromptRequest -> H -> H.

Local Abbreviation db_step := (NaturalLanguageInput.step H mutate).
Local Abbreviation db_run := (NaturalLanguageInput.run H mutate).
Local Abbreviation db_mount := (NaturalLanguageInput.mount H mutate).

Definition change_events (cs : list (Z * string))
  : list NaturalLanguageInput.Event :=
  map (fun c => NaturalLanguageInput.Change (fst c) (snd c)) cs.

Definition fire_events (nows : list Z) : list NaturalLanguageInput.Event :=
  map NaturalLanguageInput.Fire nows.

Lemma changes_are_silent (cs : list (Z * string)) :
  forall st : NaturalLanguageInput.State H,
    snd (db_run st (change_events cs)) = [] /\
    NaturalLanguageInput.analyzePrompt (fst (db_run st (change_events cs)))
    = NaturalLanguageInput.analyzePrompt st /\
    NaturalLanguageInput.debouncedValue (fst (db_run st (change_events cs)))
    = NaturalLanguageInput.debouncedValue st.
Proof.
  induction cs as [|[t v] cs IH]; intros st; [repeat split|].
  cbn [change_events map NaturalLanguageInput.run fst snd].
  fold (change_events cs).
  set (st1 := fst (db_step st (NaturalLanguageInput.Change t v))).
  assert (E : db_step st (NaturalLanguageInput.Change t v) = (st1, [])).
  { subst st1. cbn. destruct (v =? NaturalLanguageInput.value st)%string;
      reflexivity. }
  assert (K : NaturalLanguageInput.analyzePrompt st1
              = NaturalLanguageInput.analyzePrompt st /\
              NaturalLanguageInput.debouncedValue st1
              = NaturalLanguageInput.debouncedValue st).
  { subst st1. cbn. destruct (v =? NaturalLanguageInput.value st)%string;
      split; reflexivity. }
  rewrite E. destruct (IH st1) as (I1 & I2 & I3).
  destruct (db_run st1 (change_events cs)) as [st2 c2].
  cbn [fst snd app] in *.
  destruct K as [K1 K2]. repeat split; congruence.
Qed.

Lemma fire_calls_current (st : NaturalLanguageInput.State H) (now : Z) :
  armed H st ->
  forall request,
    In request (snd (db_step st (NaturalLanguageInput.Fire now))) ->
    snd (db_step st (NaturalLanguageInput.Fire now)) = [request] /\
    request = {| ap_prompt := NaturalLanguageInput.value st |}.
Proof.
  intros Ha request. rewrite step_fire.
  destruct (NaturalLanguageInput.handler st) as [t|] eqn:Ht; [|intros []].
  destruct (Ha t Ht) as [Hc _].
  destruct (NaturalLanguageInput.due t <=? now); [|intros []].
  destruct (_ =? _)%string; [intros []|]. cbn [snd]. rewrite Hc.
  unfold NaturalLanguageInput.analyze_effect.
  destruct (3 <? _)%nat; cbn [snd]; [|intros []].
  intros [<-|[]]. split; reflexivity.
Qed.

(** X1: however often the text changes, the changes themselves issue no
    call and leave the analysis alone; when the timer then goes off, at
    most one call is made, and it is for the latest text. *)
Theorem debounce_collapses_changes (st : NaturalLanguageInput.State H)
    (cs : list (Z * string)) (now : Z) :
  NaturalLanguageInput.reachable H mutate st ->
  let st' := fst (db_run st (change_events cs)) in
  snd (db_run st (change_events cs)) = [] /\
  NaturalLanguageInput.analyzePrompt st' = NaturalLanguageInput.analyzePrompt st /\
  (forall request,
      In request (snd (db_step st' (NaturalLanguageInput.Fire now))) ->
      snd (db_step st' (NaturalLanguageInput.Fire now)) = [request] /\
      request = {| ap_prompt := NaturalLanguageInput.value st' |}).
Proof.
  intros Hr st'. subst st'.
  destruct (changes_are_silent cs st) as (C1 & C2 & _).
  split; [exact C1|]. split; [exact C2|].
  apply fire_calls_current.
  apply (run_armed H mutate), (reachable_armed H mutate), Hr.
Qed.

Lemma fires_without_timer (nows : list Z) :
  forall st : NaturalLanguageInput.State H,
    NaturalLanguageInput.handler st = None ->
    db_run st (fire_events nows) = (st, []).
Proof.
  induction nows as [|now nows IH]; intros st Hn; [reflexivity|].
  cbn [fire_events map NaturalLanguageInput.run]. fold (fire_events nows).
  rewrite step_fire, Hn. now rewrite (IH st Hn).
Qed.

(** X2: once a value is pending, the timer callback may run any number of
    times, early or late: all these runs together issue at most one
    call. *)
Theorem settled_value_analysed_once (st : NaturalLanguageInput.State H)
    (nows : list Z) :
  (List.length (snd (db_run st (fire_events nows))) <= 1)%nat.
Proof.
  revert st. induction nows as [|now nows IH]; intros st; [cbn; lia|].
  cbn [fire_events map NaturalLanguageInput.run]. fold (fire_events nows).
  rewrite step_fire.
  destruct (NaturalLanguageInput.handler st) as [t|] eqn:Ht.
  - destruct (NaturalLanguageInput.due t <=? now).
    + destruct (_ =? _)%string.
      * rewrite fires_without_timer by reflexivity. cbn. lia.
      * rewrite fires_without_timer by reflexivity. cbn [snd].
        rewrite app_nil_r. unfold NaturalLanguageInput.analyze_effect.
        destruct (3 <? _)%nat; cbn; lia.
    + specialize (IH st).
      destruct (db_run st (fire_events nows)) as [st2 c2]. exact IH.
  - specialize (IH st).
    destruct (db_run st (fire_events nows)) as [st2 c2]. exact IH.
Qed.

Lemma change_spec (st : NaturalLanguageInput.State H) (t : Z) (v : string) :
  exists s1,
    db_step st (NaturalLanguageInput.Change t v) = (s1, []) /\
    NaturalLanguageInput.value s1 = v /\
    NaturalLanguageInput.debouncedValue s1 = NaturalLanguageInput.debouncedValue st /\
    NaturalLanguageInput.analyzePrompt s1 = NaturalLanguageInput.analyzePrompt st.
Proof.
  cbn. destruct (String.eqb_spec v (NaturalLanguageInput.value st)) as [->|_];
    eexists; repeat split.
Qed.

(** X3: a text that was already analysed is not analysed again: when the
    value is the one last settled, also after the text went elsewhere and
    came back, the timer issues no call. *)
Theorem same_value_not_analysed_again (st : NaturalLanguageInput.State H)
    (t1 t2 now : Z) (w : string) :
  NaturalLanguageInput.reachable H mutate st ->
  NaturalLanguageInput.value st = NaturalLanguageInput.debouncedValue st ->
  snd (db_step st (NaturalLanguageInput.Fire now)) = [] /\
  snd (db_run st [NaturalLanguageInput.Change t1 w;
                  NaturalLanguageInput.Change t2 (NaturalLanguageInput.value st);
                  NaturalLanguageInput.Fire now]) = [].
Proof.
  intros Hr Hv. apply (reachable_armed H mutate) in Hr.
  assert (Hsame : forall s : NaturalLanguageInput.State H,
             armed H s ->
             NaturalLanguageInput.value s = NaturalLanguageInput.debouncedValue s ->
             snd (db_step s (NaturalLanguageInput.Fire now)) = []).
  { intros s Ha Hs. rewrite step_fire.
    destruct (NaturalLanguageInput.handler s) as [t|] eqn:Ht; [|reflexivity].
    destruct (Ha t Ht) as [Hc _].
    destruct (NaturalLanguageInput.due t <=? now); [|reflexivity].
    rewrite Hc, Hs, String.eqb_refl. reflexivity. }
  split; [now apply Hsame|].
  cbn [NaturalLanguageInput.run].
  pose proof (step_armed H mutate st (NaturalLanguageInput.Change t1 w) Hr) as A1.
  destruct (change_spec st t1 w) as (s1 & E1 & _ & D1 & _).
  rewrite E1 in *. cbn [fst] in A1.
  pose proof (step_armed H mutate s1
                (NaturalLanguageInput.Change t2 (NaturalLanguageInput.value st)) A1)
    as A2.
  destruct (change_spec s1 t2 (NaturalLanguageInput.value st))
    as (s2 & E2 & V2 & D2 & _).
  rewrite E2 in *. cbn [fst] in A2.
  assert (K : snd (db_step s2 (NaturalLanguageInput.Fire now)) = [])
    by (apply Hsame; [exact A2 | congruence]).
  destruct (db_step s2 (NaturalLanguageInput.Fire now)) as [s3 c3].
  cbn [snd app] in *. now rewrite K.
Qed.

End Debounce.

Lemma debounce_collapses_changes_witness :
  snd (NaturalLanguageInput.run call_log cons typed
         (change_events [(1500, "Redact"); (1600, "Redact names")])) = [].
Proof.
  apply (debounce_collapses_changes call_log cons typed
           [(1500, "Redact"); (1600, "Redact names")] 2100 typed_reachable).
Defined.

Definition analysed : NaturalLanguageInput.State call_log :=
  fst (NaturalLanguageInput.run call_log cons
         (fst (NaturalLanguageInput.mount call_log cons 0 EmptyString []))
         [NaturalLanguageInput.Change 0 "Redact SSN only";
          NaturalLanguageInput.Fire 600]).

Lemma analysed_reachable : NaturalLanguageInput.reachable call_log cons analysed.
Proof.
  exists 0, [], [NaturalLanguageInput.Change 0 "Redact SSN only";
                 NaturalLanguageInput.Fire 600].
  reflexivity.
Defined.

Lemma same_value_not_analysed_again_witness :
  snd (NaturalLanguageInput.run call_log cons analysed
         [NaturalLanguageInput.Change 700 "Redact";
          NaturalLanguageInput.Change 800 (NaturalLanguageInput.value analysed);
          NaturalLanguageInput.Fire 1300]) = [].
Proof.
  apply (same_value_not_analysed_again call_log cons analysed 700 800 1300
           "Redact" analysed_reachable eq_refl).
Defined.

Lemma trim_long_nonempty (v : string) :
  (3 < String.length (JS.trim v))%nat -> v <> EmptyString.
Proof. intros L ->. cbn in L. lia. Qed.

Lemma example_prompts_long :
  Forall (fun p => (3 < String.length (JS.trim p))%nat)
         NaturalLanguageInput.EXAMPLE_PROMPTS.
Proof.
  unfold NaturalLanguageInput.EXAMPLE_PROMPTS.
  repeat (apply Forall_cons; [apply Nat.ltb_lt; vm_compute; reflexivity|]).
  apply Forall_nil.
Qed.

(** X4: in an input mounted with the empty prompt, a text whose trimmed
    length exceeds 3 is analysed once the timer goes off 500 ms or more
    after it was entered: exactly one call, carrying the text as entered.
    Every suggestion offered under the input is such a text, so choosing
    one leads to its analysis. *)
Theorem long_text_is_analysed (H : Type)
    (mutate : AnalyzePromptRequest -> H -> H) (t0 t now : Z) (h : H) :
  t + 500 <= now ->
  (forall v,
      (3 < String.length (JS.trim v))%nat ->
      NaturalLanguageInput.run H mutate
        (fst (NaturalLanguageInput.mount H mutate t0 EmptyString h))
        [NaturalLanguageInput.Change t v; NaturalLanguageInput.Fire now]
      = ({| NaturalLanguageInput.value := v;
            NaturalLanguageInput.debouncedValue := v;
            NaturalLanguageInput.handler := None;
            NaturalLanguageInput.changedAt := t;
            NaturalLanguageInput.analyzePrompt := mutate {| ap_prompt := v |} h |},
         [{| ap_prompt := v |}])) /\
  (forall p,
      In p NaturalLanguageInput.EXAMPLE_PROMPTS ->
      snd (NaturalLanguageInput.run H mutate
             (fst (NaturalLanguageInput.mount H mutate t0 EmptyString h))
             [NaturalLanguageInput.handleSuggestionClick t p;
              NaturalLanguageInput.Fire now])
      = [{| ap_prompt := p |}]).
Proof.
  intros Hnow.
  assert (Hlong : forall v,
      (3 < String.length (JS.trim v))%nat ->
      NaturalLanguageInput.run H mutate
        (fst (NaturalLanguageInput.mount H mutate t0 EmptyString h))
        [NaturalLanguageInput.Change t v; NaturalLanguageInput.Fire now]
      = ({| NaturalLanguageInput.value := v;
            NaturalLanguageInput.debouncedValue := v;
            NaturalLanguageInput.handler := None;
            NaturalLanguageInput.changedAt := t;
            NaturalLanguageInput.analyzePrompt := mutate {| ap_prompt := v |} h |},
         [{| ap_prompt := v |}])).
  { intros v L. pose proof (trim_long_nonempty v L) as Hne.
    assert (Hm : NaturalLanguageInput.mount H mutate t0 EmptyString h
                 = ({| NaturalLanguageInput.value := EmptyString;
                       NaturalLanguageInput.debouncedValue := EmptyString;
                       NaturalLanguageInput.handler :=
                         Some {| NaturalLanguageInput.due := t0 + 500;
                                 NaturalLanguageInput.captured := EmptyString |};
                       NaturalLanguageInput.changedAt := t0;
                       NaturalLanguageInput.analyzePrompt := h |}, []))
      by reflexivity.
    rewrite Hm. cbn [fst NaturalLanguageInput.run].
    cbn -[Z.add Z.leb JS.trim Nat.ltb NaturalLanguageInput.analyze_effect].
    destruct (String.eqb_spec v "") as [E|_]; [contradiction|].
    cbn -[Z.add Z.leb JS.trim Nat.ltb NaturalLanguageInput.analyze_effect].
    unfold NaturalLanguageInput.delay.
    destruct (Z.leb_spec (t + 500) now) as [_|Hlt]; [|lia].
    destruct (String.eqb_spec v "") as [E|_]; [contradiction|].
    rewrite (analyze_effect_long H mutate v h L). reflexivity. }
  split; [exact Hlong|].
  intros p Hp. unfold NaturalLanguageInput.handleSuggestionClick.
  rewrite Hlong; [reflexivity|].
  pose proof example_prompts_long as Hall. rewrite Forall_forall in Hall.
  now apply Hall.
Qed.

Lemma long_text_is_analysed_witness :
  snd (NaturalLanguageInput.run call_log cons
         (fst (NaturalLanguageInput.mount call_log cons 0 EmptyString []))
         [NaturalLanguageInput.handleSuggestionClick 100
            "Redact everything except dates";
          NaturalLanguageInput.Fire 600])
  = [{| ap_prompt := "Redact everything except dates" |}].
Proof.
  apply (long_text_is_analysed call_log cons 0 100 600 []).
  - discriminate.
  - cbn. tauto.
Defined.

(** ** The local identifier stays local *)

Definition forget_id (st : FileUpload.State) : FileUpload.State :=
  {| FileUpload.uploadedFile :=
       option_map (fun u => {| FileUpload.file := FileUpload.file u;
                               FileUpload.id := EmptyString |})
                  (FileUpload.uploadedFile st);
     FileUpload.prompt := FileUpload.prompt st;
     FileUpload.jobId := FileUpload.jobId st;
     FileUpload.isPending := FileUpload.isPending st;
     FileUpload.jobStatus := FileUpload.jobStatus st |}.

Definition forget_random (ev : FileUpload.Event) : FileUpload.Event :=
  match ev with
  | FileUpload.Drop acceptedFiles _ => FileUpload.Drop acceptedFiles EmptyString
  | _ => ev
  end.

Lemma setJobId_forget (j : option string) (st : FileUpload.State) :
  FileUpload.setJobId j (forget_id st)
  = (forget_id (fst (FileUpload.setJobId j st)), snd (FileUpload.setJobId j st)).
Proof.
  unfold FileUpload.setJobId. cbn [forget_id FileUpload.jobId].
  destruct (FileUpload.option_string_eqb j (FileUpload.jobId st)); [reflexivity|].
  destruct (Query.mount (FileUpload.pollerOptions j)); reflexivity.
Qed.

Lemma step_forget (st : FileUpload.State) (ev : FileUpload.Event) :
  FileUpload.step (forget_id st) (forget_random ev)
  = (forget_id (fst (FileUpload.step st ev)), snd (FileUpload.step st ev)).
Proof.
  destruct ev as [files rid | v | | outcome | url outcome | | pev];
    cbn [forget_random FileUpload.step].
  - unfold FileUpload.onDrop. destruct files as [|f rest]; [reflexivity|].
    destruct (FileUpload.maxSize <? file_size f); [reflexivity|].
    destruct (negb _); reflexivity.
  - reflexivity.
  - unfold FileUpload.handleProcess, FileUpload.handleProcess_request.
    cbn [forget_id FileUpload.uploadedFile FileUpload.prompt].
    destruct (FileUpload.uploadedFile st) as [u|]; reflexivity.
  - unfold FileUpload.handleProcess_settled.
    cbn [forget_id FileUpload.isPending].
    destruct (FileUpload.isPending st); [|reflexivity].
    destruct outcome as [res|err]; [|reflexivity].
    match goal with
    | |- context [FileUpload.setJobId ?j (FileUpload.mkState ?a ?b ?c ?d ?e)] =>
        change (FileUpload.mkState a b c d e)
          with (forget_id
                  {| FileUpload.uploadedFile := FileUpload.uploadedFile st;
                     FileUpload.prompt := FileUpload.prompt st;
                     FileUpload.jobId := FileUpload.jobId st;
                     FileUpload.isPending := false;
                     FileUpload.jobStatus := FileUpload.jobStatus st |})
    end.
    rewrite setJobId_forget.
    destruct (FileUpload.setJobId _ _) as [st' effs]. reflexivity.
  - unfold FileUpload.handleDownload. cbn [forget_id FileUpload.jobId].
    destruct (FileUpload.jobId st) as [j|]; [|reflexivity].
    destruct (JS.truthy j); [|reflexivity].
    destruct outcome; reflexivity.
  - unfold FileUpload.handleReset. rewrite setJobId_forget.
    destruct (FileUpload.setJobId None st) as [st' effs]. reflexivity.
  - unfold FileUpload.poll. cbn [forget_id FileUpload.jobId FileUpload.jobStatus].
    destruct (Query.step _ _ _) as [p acts]. reflexivity.
Qed.

Lemma run_forget (evs : list FileUpload.Event) :
  forall st,
    FileUpload.run (forget_id st) (map forget_random evs)
    = (forget_id (fst (FileUpload.run st evs)), snd (FileUpload.run st evs)).
Proof.
  induction evs as [|ev evs IH]; intros st; [reflexivity|].
  cbn [map FileUpload.run]. rewrite step_forget.
  destruct (FileUpload.step st ev) as [st1 e1]. cbn [fst snd].
  rewrite IH. destruct (FileUpload.run st1 evs) as [st2 e2]. reflexivity.
Qed.

(** X5: the identifier generated on a drop never leaves the component:
    two sessions that differ only in the identifiers drawn produce the same
    requests, toasts, timers and downloads, in the same order. *)
Theorem random_id_never_observable (evs evs' : list FileUpload.Event) :
  map forget_random evs = map forget_random evs' ->
  snd (FileUpload.run FileUpload.initial evs)
  = snd (FileUpload.run FileUpload.initial evs').
Proof.
  intros E.
  pose proof (run_forget evs FileUpload.initial) as R.
  pose proof (run_forget evs' FileUpload.initial) as R'.
  rewrite E in R. rewrite R in R'. exact (f_equal snd R').
Qed.

Lemma random_id_never_observable_witness :
  snd (FileUpload.run FileUpload.initial
         [FileUpload.Drop [limit_text] "k3x9q0a1z"; FileUpload.ProcessClick])
  = snd (FileUpload.run FileUpload.initial
           [FileUpload.Drop [limit_text] "p0o9i8u7y"; FileUpload.ProcessClick]).
Proof.
  apply random_id_never_observable. reflexivity.
Defined.

(** ** What the component asks of the server *)

(** The job ids the server has announced in a session. *)
Definition announced (evs : list FileUpload.Event) : list string :=
  flat_map (fun ev => match ev with
                      | FileUpload.ProcessSettled (inl res) => [rr_job_id res]
                      | _ => []
                      end) evs.

(** A submission with preview off, or a status or download request for a
    non-empty job id out of [K]. *)
Definition known_request (K : list string) (r : Api.Request) : Prop :=
  (exists request, r = Api.processDocument request /\
                   req_preview_only request = Some false) \/
  (exists j, In j K /\ j <> EmptyString /\
             (r = Api.getJobStatus j \/ r = Api.downloadResult j)).

Definition quiescent (p : FileUpload.Poller) : Prop :=
  Query.fetchStatus p = Query.idle /\ Query.timer p = None.

(** The job id held is one of [K], and without a usable job id the poller
    is at rest. *)
Definition tracks (K : list string) (st : FileUpload.State) : Prop :=
  match FileUpload.jobId st with
  | Some j => In j K /\ (j = EmptyString -> quiescent (FileUpload.jobStatus st))
  | None => quiescent (FileUpload.jobStatus st)
  end.

Lemma known_request_mono (K K' : list string) (r : Api.Request) :
  incl K K' -> known_request K r -> known_request K' r.
Proof.
  intros Hi [Hk|(j & Hj & Hne & Hr)]; [left; exact Hk|].
  right. exists j. auto.
Qed.

Lemma quiescent_step (o : Query.Options JobStatusResponse)
    (p : FileUpload.Poller) (ev : FileUpload.PollerEvent) :
  quiescent p -> Query.step o p ev = (p, []).
Proof.
  intros [Hf Ht]. destruct ev; unfold Query.step; rewrite ?Hf, ?Ht; reflexivity.
Qed.

Lemma pollerOptions_enabled (j : option string) :
  Query.enabled (FileUpload.pollerOptions j) = JS.truthy_opt j.
Proof. cbn. apply andb_diag. Qed.

Lemma mount_poller (j : option string) :
  (JS.truthy_opt j = false /\
   Query.mount (E := Api.CustomError) (FileUpload.pollerOptions j)
   = (Query.initial, [])) \/
  (exists id, j = Some id /\ id <> EmptyString /\
              FileUpload.network
                (map FileUpload.pollerEffect
                   (snd (Query.mount (E := Api.CustomError)
                           (FileUpload.pollerOptions j))))
              = [Api.getJobStatus id]).
Proof.
  unfold Query.mount. rewrite pollerOptions_enabled.
  destruct j as [id|]; [|left; split; reflexivity].
  cbn [JS.truthy_opt]. destruct (truthy_spec id) as [[-> Hne]|[-> _]].
  - right. exists id. repeat split. exact Hne.
  - left. split; reflexivity.
Qed.

Lemma setJobId_tracks (K : list string) (j : option string)
    (st : FileUpload.State) :
  tracks K st ->
  (forall id, j = Some id -> In id K) ->
  tracks K (fst (FileUpload.setJobId j st)) /\
  Forall (known_request K) (FileUpload.network (snd (FileUpload.setJobId j st))).
Proof.
  intros Ht Hj. unfold FileUpload.setJobId.
  destruct (FileUpload.option_string_eqb j (FileUpload.jobId st));
    [split; [exact Ht | constructor]|].
  destruct (mount_poller j) as [[Hoff Hm]|(id & -> & Hne & Hn)].
  - rewrite Hm. cbn. split; [|constructor].
    unfold tracks. cbn.
    destruct j as [id|]; [|split; reflexivity].
    split; [now apply Hj|]. intros _. split; reflexivity.
  - destruct (Query.mount (FileUpload.pollerOptions (Some id))) as [p acts].
    cbn [fst snd] in *. rewrite Hn. split.
    + unfold tracks. cbn. split; [now apply Hj | contradiction].
    + constructor; [|constructor]. right. exists id.
      repeat split; auto.
Qed.

Lemma step_tracks (K : list string) (st : FileUpload.State)
    (ev : FileUpload.Event) :
  tracks K st ->
  tracks (K ++ announced [ev]) (fst (FileUpload.step st ev)) /\
  Forall (known_request (K ++ announced [ev]))
         (FileUpload.network (snd (FileUpload.step st ev))).
Proof.
  intros Ht.
  assert (Hmono : tracks (K ++ announced [ev]) st).
  { unfold tracks in *. destruct (FileUpload.jobId st) as [j|]; [|exact Ht].
    destruct Ht as [Hin Hq]. split; [apply in_or_app; now left | exact Hq]. }
  destruct ev as [files rid | v | | outcome | url outcome | | pev];
    cbn [FileUpload.step].
  - unfold FileUpload.onDrop. destruct files as [|f rest];
      [split; [exact Hmono | constructor]|].
    destruct (FileUpload.maxSize <? file_size f);
      [split; [exact Hmono | constructor]|].
    destruct (negb _); (split; [exact Hmono | constructor]).
  - split; [exact Hmono | constructor].
  - unfold FileUpload.handleProcess.
    destruct (FileUpload.handleProcess_request st) as [request|] eqn:Hreq;
      [|split; [exact Hmono | constructor]].
    split; [exact Hmono|]. constructor; [|constructor].
    left. exists request. split; [reflexivity|].
    unfold FileUpload.handleProcess_request in Hreq.
    destruct (FileUpload.uploadedFile st); [|discriminate Hreq].
    injection Hreq as <-. reflexivity.
  - unfold FileUpload.handleProcess_settled.
    destruct (FileUpload.isPending st); [|split; [exact Hmono | constructor]].
    destruct outcome as [res|err]; [|split; [exact Hmono | constructor]].
    match goal with
    | |- context [FileUpload.setJobId ?j ?s] =>
        destruct (setJobId_tracks (K ++ announced [FileUpload.ProcessSettled (inl res)])
                    j s Hmono) as [H1 H2]
    end.
    { intros id E. injection E as <-. apply in_or_app. right. now left. }
    destruct (FileUpload.setJobId _ _) as [st' effs]. cbn [fst snd] in *.
    split; [exact H1|]. cbn [FileUpload.network]. exact H2.
  - unfold FileUpload.handleDownload.
    destruct (FileUpload.jobId st) as [j|] eqn:Hj;
      [|split; [exact Hmono | constructor]].
    destruct (truthy_spec j) as [[-> Hne]|[-> _]];
      [|split; [exact Hmono | constructor]].
    assert (Hk : known_request (K ++ announced [FileUpload.DownloadClick url outcome])
                   (Api.downloadResult j)).
    { right. exists j. unfold tracks in Hmono. rewrite Hj in Hmono.
      repeat split; [apply Hmono | exact Hne | now right]. }
    destruct outcome as [blob|err]; cbn; (split; [exact Hmono|]);
      (constructor; [exact Hk | constructor]).
  - unfold FileUpload.handleReset.
    destruct (setJobId_tracks (K ++ announced [FileUpload.ResetClick]) None st Hmono)
      as [H1 H2]; [discriminate|].
    destruct (FileUpload.setJobId None st) as [st' effs]. cbn [fst snd] in *.
    split; [exact H1 | exact H2].
  - unfold FileUpload.poll.
    pose proof (step_from_query _ _ (FileUpload.pollerOptions (FileUpload.jobId st))
                  (FileUpload.jobStatus st) pev) as Hq.
    apply network_from_query in Hq.
    assert (Hrest : quiescent (FileUpload.jobStatus st) ->
              Query.step (FileUpload.pollerOptions (FileUpload.jobId st))
                (FileUpload.jobStatus st) pev = (FileUpload.jobStatus st, []))
      by apply quiescent_step.
    unfold tracks in *.
    destruct (FileUpload.jobId st) as [j|] eqn:Hj.
    + destruct Hmono as [Hin Hquiet].
      destruct (String.eqb_spec j "") as [E|Hne].
      * rewrite (Hrest (Hquiet E)). cbn. rewrite ?Hj.
        split; [split; assumption | constructor].
      * destruct (Query.step _ _ pev) as [p acts]. cbn [fst snd] in *.
        cbn. rewrite ?Hj. split; [split; [exact Hin | contradiction]|].
        eapply Forall_impl; [|exact Hq].
        intros r <-. right. exists j. repeat split; auto.
    + rewrite (Hrest Hmono). cbn. rewrite ?Hj.
      split; [exact Hmono | constructor].
Qed.

Lemma run_tracks (evs : list FileUpload.Event) :
  forall K st,
    tracks K st ->
    tracks (K ++ announced evs) (fst (FileUpload.run st evs)) /\
    Forall (known_request (K ++ announced evs))
           (FileUpload.network (snd (FileUpload.run st evs))).
Proof.
  induction evs as [|ev evs IH]; intros K st Ht.
  - cbn. rewrite app_nil_r. split; [exact Ht | constructor].
  - cbn [FileUpload.run].
    destruct (step_tracks K st ev Ht) as [H1 N1].
    destruct (FileUpload.step st ev) as [st1 e1]. cbn [fst snd] in *.
    destruct (IH _ st1 H1) as [H2 N2].
    destruct (FileUpload.run st1 evs) as [st2 e2]. cbn [fst snd] in *.
    assert (E : (K ++ announced (ev :: evs) = (K ++ announced [ev]) ++ announced evs)%list).
    { change (ev :: evs) with ([ev] ++ evs)%list. unfold announced.
      now rewrite flat_map_app, app_assoc. }
    rewrite E. split; [exact H2|].
    rewrite network_app. apply Forall_app. split; [|exact N2].
    eapply Forall_impl; [|exact N1].
    intros r. apply known_request_mono. apply incl_appl, incl_refl.
Qed.

Lemma initial_tracks : tracks [] FileUpload.initial.
Proof. split; reflexivity. Qed.

(** X6: whatever the user and the server do, every request the component
    issues is a submission to /redact with preview off, or a status or
    download request for a non-empty job id that the server announced in
    reply to a submission of this session.  In particular the upload
    endpoint is never called. *)
Theorem requests_are_known (evs : list FileUpload.Event) (r : Api.Request) :
  In r (FileUpload.network (snd (FileUpload.run FileUpload.initial evs))) ->
  known_request (announced evs) r /\
  (forall f, r <> Api.uploadFile f).
Proof.
  intros Hin.
  destruct (run_tracks evs [] FileUpload.initial initial_tracks) as [_ Hall].
  rewrite Forall_forall in Hall. specialize (Hall r Hin). cbn [app] in Hall.
  split; [exact Hall|].
  intros f ->. destruct Hall as [(request & E & _)|(j & _ & _ & [E|E])];
    discriminate E.
Qed.

Definition accepted_session : list FileUpload.Event :=
  [ FileUpload.Drop [limit_text] "k3x9q0a1z";
    FileUpload.ProcessClick;
    FileUpload.ProcessSettled
      (inl {| rr_job_id := "job-123"; rr_success := true;
              rr_message := "Processing started"; rr_preview_text := None;
              rr_entities_detected := 2 |});
    FileUpload.Poll (Query.Resolve completed_snapshot);
    FileUpload.DownloadClick "blob:1" (inl []) ].

Lemma requests_are_known_witness :
  known_request (announced accepted_session) (Api.getJobStatus "job-123").
Proof.
  apply (requests_are_known accepted_session (Api.getJobStatus "job-123")).
  cbn. right. left. reflexivity.
Defined.

(** ** Resetting *)

Lemma poll_quiescent (pev : FileUpload.PollerEvent) (st : FileUpload.State) :
  quiescent (FileUpload.jobStatus st) -> FileUpload.poll pev st = (st, []).
Proof.
  intros Hq. unfold FileUpload.poll. rewrite (quiescent_step _ _ pev Hq).
  destruct st; reflexivity.
Qed.

Lemma polls_quiescent (pevs : list FileUpload.PollerEvent) (st : FileUpload.State) :
  quiescent (FileUpload.jobStatus st) ->
  FileUpload.run st (map FileUpload.Poll pevs) = (st, []).
Proof.
  intros Hq. induction pevs as [|pev pevs IH]; [reflexivity|].
  cbn [map FileUpload.run FileUpload.step].
  now rewrite (poll_quiescent pev st Hq), IH.
Qed.

(** X7: at any point of a session, Reset empties the file, the prompt and
    the job id without issuing a request, and from then on the poller is
    at rest: a late response, a late failure or a timer that still fires
    is ignored and causes no status query. *)
Theorem reset_stops_polling (evs : list FileUpload.Event)
    (pevs : list FileUpload.PollerEvent) :
  let st := fst (FileUpload.run FileUpload.initial evs) in
  let st' := fst (FileUpload.handleReset st) in
  FileUpload.uploadedFile st' = None /\
  FileUpload.prompt st' = EmptyString /\
  FileUpload.jobId st' = None /\
  FileUpload.network (snd (FileUpload.handleReset st)) = [] /\
  FileUpload.run st' (map FileUpload.Poll pevs) = (st', []).
Proof.
  intros st st'. subst st'.
  destruct (run_tracks evs [] FileUpload.initial initial_tracks) as [Ht _].
  fold st in Ht. unfold tracks in Ht.
  assert (K : FileUpload.jobId (fst (FileUpload.handleReset st)) = None /\
              quiescent (FileUpload.jobStatus (fst (FileUpload.handleReset st))) /\
              FileUpload.network (snd (FileUpload.handleReset st)) = []).
  { unfold FileUpload.handleReset, FileUpload.setJobId.
    destruct (FileUpload.jobId st) as [j|] eqn:Hj; cbn.
    - repeat split.
    - rewrite Hj. repeat split; apply Ht. }
  destruct K as (Kj & Kq & Kn).
  repeat split; try assumption.
  - unfold FileUpload.handleReset.
    destruct (FileUpload.setJobId None st); reflexivity.
  - unfold FileUpload.handleReset.
    destruct (FileUpload.setJobId None st); reflexivity.
  - now apply polls_quiescent.
Qed.

(** ** Failures shown to the user *)

Lemma onRejected_message_nonempty (error : Api.AxiosError) :
  Api.message (Api.onRejected error) <> EmptyString.
Proof.
  unfold Api.onRejected; cbn [Api.message].
  apply or_string_nonempty, or_string_nonempty. discriminate.
Qed.

(** X8: when a submission or a download is rejected by the transport
    client, the toast shows exactly the normalized message; that message
    is never empty, so the fallback texts of the component are not used
    for such errors.  A rejected submission sets no job id, a rejected
    download touches no DOM node. *)
Theorem failure_toast_is_normalized (st : FileUpload.State)
    (error : Api.AxiosError) :
  let e := Api.onRejected error in
  Api.message e <> EmptyString /\
  (FileUpload.isPending st = true ->
   snd (FileUpload.handleProcess_settled (Api.interceptor (inr error)) st)
   = [FileUpload.ToastError (Api.message e)] /\
   FileUpload.jobId (fst (FileUpload.handleProcess_settled
                            (Api.interceptor (inr error)) st))
   = FileUpload.jobId st) /\
  (forall url j,
      FileUpload.jobId st = Some j -> j <> EmptyString ->
      FileUpload.handleDownload url (Api.interceptor (inr error)) st
      = (st, [FileUpload.Network (Api.downloadResult j);
              FileUpload.ToastError (Api.message e)])).
Proof.
  intros e. subst e.
  pose proof (onRejected_message_nonempty error) as Hne.
  split; [exact Hne|]. split.
  - intros Hp. unfold FileUpload.handleProcess_settled. rewrite Hp.
    cbn -[Api.onRejected JS.or_string].
    rewrite (or_string_truthy _ _ Hne). split; reflexivity.
  - intros url j Hj Hj'. unfold FileUpload.handleDownload. rewrite Hj.
    destruct (truthy_spec j) as [[-> _]|[_ E]]; [|contradiction].
    cbn -[Api.onRejected JS.or_string Api.downloadResult].
    now rewrite (or_string_truthy _ _ Hne).
Qed.

Definition submitting : FileUpload.State :=
  fst (FileUpload.run FileUpload.initial
         [FileUpload.Drop [limit_text] "k3x9q0a1z"; FileUpload.ProcessClick]).

Lemma failure_toast_is_normalized_witness :
  snd (FileUpload.handleProcess_settled (Api.interceptor (inr too_large)) submitting)
  = [FileUpload.ToastError "File too large"].
Proof.
  apply (failure_toast_is_normalized submitting too_large). reflexivity.
Defined.

(** ** Temporary resources of a download *)

Definition anchor_eqb (a b : Hooks.Anchor) : bool :=
  (Hooks.href a =? Hooks.href b)%string
  && (Hooks.download a =? Hooks.download b)%string.

Fixpoint remove_first {A : Type} (eqb : A -> A -> bool) (x : A) (l : list A)
  : list A :=
  match l with
  | [] => []
  | y :: rest => if eqb x y then rest else y :: remove_first eqb x rest
  end.

(** The object URLs that are alive and the anchors in the document. *)
Definition Resources : Type := list string * list Hooks.Anchor.

(** One DOM effect on the resources; [None] when it uses a resource that
    does not exist: a click on a detached anchor or through a revoked
    URL, a removal or a revocation of something absent. *)
Definition dom_step (res : Resources) (e : Hooks.DomEffect) : option Resources :=
  let '(urls, nodes) := res in
  match e with
  | Hooks.CreateObjectURL _ u => Some (u :: urls, nodes)
  | Hooks.AppendChild a => Some (urls, a :: nodes)
  | Hooks.Click a =>
      if existsb (String.eqb (Hooks.href a)) urls && existsb (anchor_eqb a) nodes
      then Some res else None
  | Hooks.RevokeObjectURL u =>
      if existsb (String.eqb u) urls
      then Some (remove_first String.eqb u urls, nodes) else None
  | Hooks.RemoveChild a =>
      if existsb (anchor_eqb a) nodes
      then Some (urls, remove_first anchor_eqb a nodes) else None
  end.

Fixpoint dom_run (res : Resources) (es : list Hooks.DomEffect)
  : option Resources :=
  match es with
  | [] => Some res
  | e :: rest =>
      match dom_step res e with
      | Some res' => dom_run res' rest
      | None => None
      end
  end.

Fixpoint dom_effects (effs : list FileUpload.Effect) : list Hooks.DomEffect :=
  match effs with
  | [] => []
  | FileUpload.Dom e :: rest => e :: dom_effects rest
  | _ :: rest => dom_effects rest
  end.

Lemma dom_effects_app (a b : list FileUpload.Effect) :
  dom_effects (a ++ b) = (dom_effects a ++ dom_effects b)%list.
Proof.
  induction a as [|e a IH]; [reflexivity|]. destruct e; cbn; now rewrite IH.
Qed.

Lemma dom_effects_map_Dom (es : list Hooks.DomEffect) :
  dom_effects (map FileUpload.Dom es) = es.
Proof. induction es as [|e es IH]; cbn; [reflexivity | now rewrite IH]. Qed.

Lemma dom_effects_poller (acts : list Query.Action) :
  dom_effects (map FileUpload.pollerEffect acts) = [].
Proof. induction acts as [|[r|ms] acts IH]; cbn; auto. Qed.

Lemma dom_run_app (a b : list Hooks.DomEffect) :
  forall res,
    dom_run res (a ++ b)
    = match dom_run res a with
      | Some res' => dom_run res' b
      | None => None
      end.
Proof.
  induction a as [|e a IH]; intros res; [reflexivity|].
  cbn. destruct (dom_step res e); [apply IH | reflexivity].
Qed.

Lemma anchor_eqb_refl (a : Hooks.Anchor) : anchor_eqb a a = true.
Proof. unfold anchor_eqb. now rewrite !String.eqb_refl. Qed.

Lemma download_onSuccess_balanced (url : string) (blob : Hooks.Blob)
    (j : string) :
  dom_run ([], []) (Hooks.download_onSuccess url blob j) = Some ([], []).
Proof.
  unfold Hooks.download_onSuccess.
  repeat (progress (cbn -[anchor_eqb String.eqb append];
                    rewrite ?String.eqb_refl, ?anchor_eqb_refl)).
  reflexivity.
Qed.

Lemma step_dom_effects (st : FileUpload.State) (ev : FileUpload.Event) :
  dom_effects (snd (FileUpload.step st ev)) = [] \/
  exists url blob j,
    dom_effects (snd (FileUpload.step st ev))
    = Hooks.download_onSuccess url blob j.
Proof.
  destruct ev as [files rid | v | | outcome | url outcome | | pev];
    cbn [FileUpload.step].
  - left. unfold FileUpload.onDrop. destruct files as [|f rest]; [reflexivity|].
    destruct (FileUpload.maxSize <? file_size f); [reflexivity|].
    destruct (negb _); reflexivity.
  - left. reflexivity.
  - left. unfold FileUpload.handleProcess.
    destruct (FileUpload.handleProcess_request st); reflexivity.
  - left. unfold FileUpload.handleProcess_settled, FileUpload.setJobId.
    destruct (FileUpload.isPending st); [|reflexivity].
    destruct outcome as [res|err]; [|reflexivity].
    cbn [FileUpload.jobId].
    destruct (FileUpload.option_string_eqb (Some (rr_job_id res)) (FileUpload.jobId st));
      [reflexivity|].
    destruct (Query.mount (FileUpload.pollerOptions (Some (rr_job_id res))))
      as [p acts].
    cbn [snd dom_effects]. apply dom_effects_poller.
  - unfold FileUpload.handleDownload.
    destruct (FileUpload.jobId st) as [j|]; [|left; reflexivity].
    destruct (JS.truthy j); [|left; reflexivity].
    destruct outcome as [blob|err]; [|left; reflexivity].
    right. exists url, blob, j. cbn [snd dom_effects].
    rewrite dom_effects_app, dom_effects_map_Dom. cbn. reflexivity.
  - left. unfold FileUpload.handleReset, FileUpload.setJobId.
    destruct (FileUpload.option_string_eqb None (FileUpload.jobId st));
      [reflexivity|].
    destruct (Query.mount (FileUpload.pollerOptions None)) as [p acts].
    cbn [snd]. apply dom_effects_poller.
  - left. unfold FileUpload.poll. destruct (Query.step _ _ _) as [p acts].
    cbn. apply dom_effects_poller.
Qed.

(** X9: in any session, from any state, the DOM effects are well ordered
    and balanced: an anchor is clicked only while it is attached and its
    object URL is alive, nothing absent is revoked or removed, and at the
    end no object URL is left alive and no anchor is left in the
    document. *)
Theorem downloads_release_resources (st : FileUpload.State)
    (evs : list FileUpload.Event) :
  dom_run ([], []) (dom_effects (snd (FileUpload.run st evs))) = Some ([], []).
Proof.
  revert st. induction evs as [|ev evs IH]; intros st; [reflexivity|].
  cbn [FileUpload.run].
  pose proof (step_dom_effects st ev) as Hs.
  destruct (FileUpload.step st ev) as [st1 e1]. cbn [snd] in Hs.
  specialize (IH st1).
  destruct (FileUpload.run st1 evs) as [st2 e2]. cbn [snd] in *.
  rewrite dom_effects_app, dom_run_app.
  destruct Hs as [->|(url & blob & j & ->)].
  - exact IH.
  - rewrite download_onSuccess_balanced. exact IH.
Qed.

(** ** Delivery of the artifact *)

(** What the host saves while a list of DOM effects runs: a click on an
    anchor saves a blob only if the anchor is in the document and its
    [href] is an object URL that is alive; the blob is the one that URL
    was created for and the name is the [download] attribute. *)
Fixpoint deliveries (live : list (string * Hooks.Blob))
    (nodes : list Hooks.Anchor) (es : list Hooks.DomEffect)
  : list (Hooks.Blob * string) :=
  match es with
  | [] => []
  | Hooks.CreateObjectURL blob u :: rest =>
      deliveries ((u, blob) :: live) nodes rest
  | Hooks.AppendChild a :: rest => deliveries live (a :: nodes) rest
  | Hooks.Click a :: rest =>
      match (if existsb (anchor_eqb a) nodes
             then find (fun e => (fst e =? Hooks.href a)%string) live
             else None) with
      | Some e => (snd e, Hooks.download a) :: deliveries live nodes rest
      | None => deliveries live nodes rest
      end
  | Hooks.RevokeObjectURL u :: rest =>
      deliveries (filter (fun e => negb (fst e =? u)%string) live) nodes rest
  | Hooks.RemoveChild a :: rest =>
      deliveries live (remove_first anchor_eqb a nodes) rest
  end.

Lemma deliveries_download_onSuccess (url : string) (blob : Hooks.Blob)
    (j : string) :
  deliveries [] [] (Hooks.download_onSuccess url blob j)
  = [(blob, ("redacted-document-" ++ j ++ "." ++ "txt")%string)].
Proof.
  unfold Hooks.download_onSuccess.
  cbn -[anchor_eqb String.eqb append].
  rewrite anchor_eqb_refl. cbn -[anchor_eqb String.eqb append].
  rewrite String.eqb_refl. cbn -[anchor_eqb String.eqb append].
  reflexivity.
Qed.

(** C9: a completed download of job [j] hands the artifact to the host
    under the name redacted-document-<j>.<extension>.  The handler
    creates an object URL for the blob it received, attaches an anchor
    that points to it and carries that name, and clicks it while both
    exist, so that the host saves exactly that blob, once, under that
    name; the extension the handler writes is always txt.  The same holds
    of a download started from the component, whose request is the
    download request of the job id it holds. *)
Theorem download_filename (url : string) (blob : Hooks.Blob) (j : string) :
  let name := ("redacted-document-" ++ j ++ "." ++ "txt")%string in
  let a := {| Hooks.href := url; Hooks.download := name |} in
  Hooks.download_onSuccess url blob j
  = [Hooks.CreateObjectURL blob url; Hooks.AppendChild a; Hooks.Click a;
     Hooks.RevokeObjectURL url; Hooks.RemoveChild a] /\
  deliveries [] [] (Hooks.download_onSuccess url blob j) = [(blob, name)] /\
  Hooks.saved_as (Hooks.download_onSuccess url blob j) = Some name /\
  (exists extension,
      deliveries [] [] (Hooks.download_onSuccess url blob j)
      = [(blob, ("redacted-document-" ++ j ++ "." ++ extension)%string)]) /\
  (forall st, FileUpload.jobId st = Some j -> j <> EmptyString ->
     FileUpload.network (snd (FileUpload.handleDownload url (inl blob) st))
     = [Api.downloadResult j] /\
     dom_effects (snd (FileUpload.handleDownload url (inl blob) st))
     = [Hooks.CreateObjectURL blob url; Hooks.AppendChild a; Hooks.Click a;
        Hooks.RevokeObjectURL url; Hooks.RemoveChild a] /\
     deliveries [] []
       (dom_effects (snd (FileUpload.handleDownload url (inl blob) st)))
     = [(blob, name)]).
Proof.
  cbn zeta.
  pose proof (deliveries_download_onSuccess url blob j) as Hd.
  split; [reflexivity|]. split; [exact Hd|]. split; [reflexivity|].
  split; [exists "txt"; exact Hd|].
  intros st Hj Hne. unfold FileUpload.handleDownload. rewrite Hj.
  destruct (truthy_spec j) as [[-> _]|[_ E]]; [|contradiction].
  cbn [snd FileUpload.network dom_effects].
  rewrite network_app, dom_effects_app, dom_effects_map_Dom.
  cbn [FileUpload.network dom_effects]. rewrite !app_nil_r.
  assert (Hn : forall es, FileUpload.network (map FileUpload.Dom es) = [])
    by (induction es as [|e es IH]; [reflexivity | exact IH]).
  rewrite Hn. split; [reflexivity|]. split; [reflexivity | exact Hd].
Qed.

Lemma download_filename_witness :
  deliveries [] [] (Hooks.download_onSuccess "blob:1" [] "job-123")
  = [([], "redacted-document-job-123.txt")].
Proof.
  exact (proj1 (proj2 (download_filename "blob:1" [] "job-123"))).
Defined.

(** ** The prompt that is transmitted *)

Fixpoint last_unit (s : string) : option ascii :=
  match s with
  | EmptyString => None
  | String c EmptyString => Some c
  | String _ r => last_unit r
  end.

Lemma trimStart_head (s : string) :
  JS.trimStart s = EmptyString \/
  exists c r, JS.trimStart s = String c r /\ JS.is_white c = false.
Proof.
  induction s as [|c r IH]; cbn; [now left|].
  destruct (JS.is_white c) eqn:E; [exact IH|].
  right. exists c, r. now split.
Qed.

Lemma trimEnd_cons_black (c : ascii) (r : string) :
  JS.is_white c = false -> JS.trimEnd (String c r) = String c (JS.trimEnd r).
Proof. intros E. cbn. now rewrite E. Qed.

Lemma trimEnd_idempotent (s : string) : JS.trimEnd (JS.trimEnd s) = JS.trimEnd s.
Proof.
  induction s as [|c r IH]; [reflexivity|].
  cbn [JS.trimEnd].
  destruct (JS.is_white c && (JS.trimEnd r =? "")%string) eqn:E; [reflexivity|].
  cbn [JS.trimEnd]. now rewrite IH, E.
Qed.

Lemma trimEnd_last (s : string) :
  JS.trimEnd s = EmptyString \/
  exists c, last_unit (JS.trimEnd s) = Some c /\ JS.is_white c = false.
Proof.
  induction s as [|c r IH]; [now left|].
  cbn [JS.trimEnd].
  destruct (JS.is_white c) eqn:Ec; cbn [andb].
  - destruct (String.eqb_spec (JS.trimEnd r) "") as [E|E]; [now left|].
    right. destruct IH as [IH|(d & Hd & Hw)]; [contradiction|].
    exists d. split; [|exact Hw].
    cbn. destruct (JS.trimEnd r); [contradiction | exact Hd].
  - right. destruct IH as [->|(d & Hd & Hw)].
    + exists c. now split.
    + exists d. split; [|exact Hw].
      cbn. destruct (JS.trimEnd r); [discriminate Hd | exact Hd].
Qed.

Lemma trimStart_length (s : string) :
  (String.length (JS.trimStart s) <= String.length s)%nat.
Proof.
  induction s as [|c r IH]; cbn; [lia|].
  destruct (JS.is_white c); cbn; lia.
Qed.

Lemma trimEnd_length (s : string) :
  (String.length (JS.trimEnd s) <= String.length s)%nat.
Proof.
  induction s as [|c r IH]; cbn; [lia|].
  destruct (JS.is_white c && _); cbn; lia.
Qed.

Lemma trim_idempotent (s : string) : JS.trim (JS.trim s) = JS.trim s.
Proof.
  unfold JS.trim.
  destruct (trimStart_head s) as [->|(c & r & -> & Hc)]; [reflexivity|].
  rewrite (trimEnd_cons_black c r Hc). cbn [JS.trimStart]. rewrite Hc.
  rewrite (trimEnd_cons_black c _ Hc). now rewrite trimEnd_idempotent.
Qed.

(** X10: a prompt that [handleProcess] puts in a request is never empty,
    neither starts nor ends with white space, is left unchanged by a
    further trim and is no longer than the text in the input. *)
Theorem transmitted_prompt_is_trimmed (st : FileUpload.State)
    (request : RedactionRequest) (p : string) :
  FileUpload.handleProcess_request st = Some request ->
  req_prompt request = Some p ->
  p = JS.trim (FileUpload.prompt st) /\
  p <> EmptyString /\
  JS.trim p = p /\
  (exists c r, p = String c r /\ JS.is_white c = false) /\
  (exists c, last_unit p = Some c /\ JS.is_white c = false) /\
  (String.length p <= String.length (FileUpload.prompt st))%nat.
Proof.
  unfold FileUpload.handleProcess_request.
  destruct (FileUpload.uploadedFile st) as [u|]; [|discriminate].
  intros E. injection E as <-. cbn [req_prompt].
  destruct (or_undefined_spec (JS.trim (FileUpload.prompt st)))
    as [[_ ->]|[Hne ->]]; [discriminate|].
  intros E. injection E as <-.
  split; [reflexivity|]. split; [exact Hne|].
  split; [apply trim_idempotent|].
  revert Hne. unfold JS.trim.
  pose proof (trimStart_length (FileUpload.prompt st)) as L1.
  pose proof (trimEnd_length (JS.trimStart (FileUpload.prompt st))) as L2.
  destruct (trimStart_head (FileUpload.prompt st)) as [->|(c & r & E & Hc)].
  - intros Hne. now contradiction Hne.
  - rewrite E in *. intros Hne. split; [|split; [|lia]].
    + rewrite (trimEnd_cons_black c r Hc). exists c, (JS.trimEnd r). now split.
    + destruct (trimEnd_last (String c r)) as [K|K]; [contradiction | exact K].
Qed.

Definition padded_prompt : FileUpload.State :=
  {| FileUpload.uploadedFile :=
       Some {| FileUpload.file := sample_file; FileUpload.id := "k3x9q0a1z" |};
     FileUpload.prompt := "  Redact SSN only ";
     FileUpload.jobId := None; FileUpload.isPending := false;
     FileUpload.jobStatus := Query.initial |}.

Lemma transmitted_prompt_is_trimmed_witness :
  "Redact SSN only" = JS.trim (FileUpload.prompt padded_prompt) /\
  JS.trim "Redact SSN only" = "Redact SSN only".
Proof.
  destruct (transmitted_prompt_is_trimmed padded_prompt
              {| req_file := sample_file; req_prompt := Some "Redact SSN only";
                 req_preview_only := Some false |}
              "Redact SSN only" eq_refl eq_refl)
    as (H1 & _ & H3 & _).
  split; assumption.
Defined.

(** ** The key of the status query *)

(** X12: the query that [useProcessDocument] invalidates after a
    successful submission is the very query [useJobStatus] observes for
    the job id of the reply; a reply with an empty job id invalidates
    nothing, and for that id the poller is disabled as well. *)
Theorem invalidated_key_is_polled_key (data : RedactionResponse)
    (flag : option bool) :
  (rr_job_id data <> EmptyString ->
   Hooks.processDocument_onSuccess data
   = Some (Query.queryKey (Hooks.useJobStatus (Some (rr_job_id data)) flag))) /\
  (rr_job_id data = EmptyString ->
   Hooks.processDocument_onSuccess data = None /\
   Query.enabled (Hooks.useJobStatus (Some (rr_job_id data)) flag) = false).
Proof.
  unfold Hooks.processDocument_onSuccess.
  destruct (truthy_spec (rr_job_id data)) as [[-> Hne]|[-> He]]; split.
  - reflexivity.
  - contradiction.
  - contradiction.
  - intros _. split; [reflexivity|]. rewrite He.
    apply useJobStatus_disabled. right. now left.
Qed.

Lemma invalidated_key_is_polled_key_witness :
  Hooks.processDocument_onSuccess
    {| rr_job_id := "job-123"; rr_success := true;
       rr_message := "Processing started"; rr_preview_text := None;
       rr_entities_detected := 2 |}
  = Some [Some "job-status"; Some "job-123"].
Proof.
  apply (invalidated_key_is_polled_key
           {| rr_job_id := "job-123"; rr_success := true;
              rr_message := "Processing started"; rr_preview_text := None;
              rr_entities_detected := 2 |} None).
  discriminate.
Defined.

(** ** A whole polling session *)

(** The poller receives each snapshot and, after each of them, its timer
    goes off. *)
Definition snapshots (ds : list JobStatusResponse)
  : list (Query.Event JobStatusResponse Api.CustomError) :=
  flat_map (fun d => [Query.Resolve d; Query.TimerFire]) ds.

Definition rounds (j : string) (ds : list JobStatusResponse) : list Query.Action :=
  flat_map (fun _ => [Query.Schedule 2000; Query.Issue (Api.getJobStatus j)]) ds.

Lemma poll_round (j : string) (flag : option bool) (st : JobPoller)
    (d : JobStatusResponse) :
  let o := Hooks.useJobStatus (Some j) flag in
  Query.enabled o = true ->
  Query.fetchStatus st = Query.fetching ->
  Query.run o st [Query.Resolve d; Query.TimerFire]
  = ({| Query.data := Some d; Query.error := None;
        Query.fetchStatus := Query.fetching;
        Query.failureCount := 0; Query.timer := None |},
     [Query.Schedule 2000; Query.Issue (Api.getJobStatus j)]).
Proof.
  intros o Hen Hf. cbn [Query.run].
  unfold Query.step at 1. rewrite Hf. unfold Query.nextTimer. rewrite Hen.
  change (Query.refetchInterval o) with Hooks.refetchInterval.
  rewrite refetchInterval_always.
  cbn [Query.scheduleActions Query.step Query.timer Query.fetchStatus].
  rewrite Hen. reflexivity.
Qed.

Lemma query_run_app {D E : Type} (o : Query.Options D)
    (a b : list (Query.Event D E)) :
  forall st,
    Query.run o st (a ++ b)
    = (fst (Query.run o (fst (Query.run o st a)) b),
       (snd (Query.run o st a) ++ snd (Query.run o (fst (Query.run o st a)) b))%list).
Proof.
  induction a as [|ev a IH]; intros st.
  - cbn. now destruct (Query.run o st b).
  - cbn [app Query.run]. destruct (Query.step o st ev) as [s1 a1].
    rewrite IH. destruct (Query.run o s1 a) as [s2 a2]. cbn [fst snd].
    now rewrite app_assoc.
Qed.

Lemma poll_rounds (j : string) (flag : option bool)
    (ds : list JobStatusResponse) :
  let o := Hooks.useJobStatus (Some j) flag in
  Query.enabled o = true ->
  forall st,
    Query.fetchStatus st = Query.fetching ->
    exists st',
      Query.fetchStatus st' = Query.fetching /\
      (forall d, last (map Some ds) None = Some d -> Query.data st' = Some d) /\
      Query.run o st (snapshots ds) = (st', rounds j ds).
Proof.
  intros o Hen. induction ds as [|d ds IH]; intros st Hf.
  - exists st. split; [exact Hf|]. split; [discriminate | reflexivity].
  - change (snapshots (d :: ds))
      with ([Query.Resolve d; Query.TimerFire] ++ snapshots ds)%list.
    rewrite query_run_app.
    pose proof (poll_round j flag st d Hen Hf) as R. fold o in R.
    rewrite R. cbn [fst snd].
    destruct (IH {| Query.data := Some d; Query.error := None;
                    Query.fetchStatus := Query.fetching;
                    Query.failureCount := 0; Query.timer := None |} eq_refl)
      as (st' & Hf' & Hlast & Hrun).
    rewrite Hrun. cbn [fst snd].
    exists st'. split; [exact Hf'|]. split; [|reflexivity].
    intros x Hx. destruct ds as [|d' ds'].
    + cbn in Hx, Hrun. injection Hx as <-.
      now injection Hrun as <-.
    + apply Hlast. exact Hx.
Qed.

(** X13: a polling session from mount on.  Whatever the snapshots report,
    completed and failed ones included, each of them arms the timer for
    2000 ms and the timer going off issues the next status query: n
    snapshots cause exactly n+1 queries, and after the last one the poller
    holds it and is fetching again.  Polling does not stop at a completed
    or failed snapshot. *)
Theorem polling_session (j : string) (flag : option bool)
    (ds : list JobStatusResponse) :
  let o := Hooks.useJobStatus (Some j) flag in
  Query.enabled o = true ->
  let r := Query.run o (fst (Query.mount o)) (snapshots ds) in
  (snd (Query.mount (E := Api.CustomError) o) ++ snd r)%list
  = (Query.Issue (Api.getJobStatus j) :: rounds j ds) /\
  List.length (Query.issued (snd (Query.mount (E := Api.CustomError) o) ++ snd r))
  = S (List.length ds) /\
  Query.fetchStatus (fst r) = Query.fetching /\
  (forall d, last (map Some ds) None = Some d -> Query.data (fst r) = Some d).
Proof.
  intros o Hen r. subst r.
  rewrite (mount_enabled o Hen). cbn [fst snd].
  destruct (poll_rounds j flag ds Hen
              {| Query.data := None; Query.error := None;
                 Query.fetchStatus := Query.fetching;
                 Query.failureCount := 0; Query.timer := None |} eq_refl)
    as (st' & Hf & Hlast & Hrun).
  fold o in Hrun. rewrite Hrun. cbn [fst snd app].
  change (Query.queryFn o) with (Api.getJobStatus j).
  repeat split; auto.
  cbn [Query.issued filter Query.is_issue]. f_equal.
  clear. induction ds as [|d ds IH]; [reflexivity|]. cbn. now rewrite <- IH.
Qed.

Lemma polling_session_witness :
  List.length
    (Query.issued
       (snd (Query.mount (E := Api.CustomError) job123)
          ++ snd (Query.run job123 (fst (Query.mount job123))
                    (snapshots [polling_snapshot; completed_snapshot;
                                completed_snapshot]))))
  = 4%nat.
Proof.
  apply (polling_session "job-123" None
           [polling_snapshot; completed_snapshot; completed_snapshot] eq_refl).
Defined.

(** ** The health check *)

(** X14: a health check that keeps failing is requested three times in
    all (the query and two retries); the third failure is stored as the
    error.  Whether it failed or succeeded, the check arms no timer and is
    not repeated: every later event is ignored. *)
Theorem health_check_attempts (E : Type) (e1 e2 e3 : E) (d : string)
    (later : list (Query.Event string E)) :
  let o := Hooks.useHealthCheck in
  let failed_run := Query.run o (fst (Query.mount o))
                      (Query.Reject e1 :: Query.Reject e2 :: Query.Reject e3 :: later) in
  let ok_run := Query.run o (fst (Query.mount o)) (Query.Resolve d :: later) in
  (snd (Query.mount (E := E) o) ++ snd failed_run)%list
  = [Query.Issue Api.healthCheck; Query.Issue Api.healthCheck;
     Query.Issue Api.healthCheck] /\
  Query.error (fst failed_run) = Some e3 /\
  Query.data (fst failed_run) = None /\
  snd ok_run = [] /\
  Query.data (fst ok_run) = Some d /\
  Query.error (fst ok_run) = None.
Proof.
  cbn zeta. cbn [Query.run].
  change (Query.mount (E := E) Hooks.useHealthCheck)
    with (({| Query.data := None; Query.error := None;
              Query.fetchStatus := Query.fetching;
              Query.failureCount := 0; Query.timer := None |} : Query.Observer string E),
          [Query.Issue Api.healthCheck]).
  cbn [fst snd].
  rewrite !step_reject_retry by reflexivity. cbn [fst snd].
  rewrite step_reject_final by reflexivity.
  assert (Hok : forall s0 : Query.Observer string E,
             Query.fetchStatus s0 = Query.fetching ->
             Query.step Hooks.useHealthCheck s0 (Query.Resolve d)
             = ({| Query.data := Some d; Query.error := None;
                   Query.fetchStatus := Query.idle;
                   Query.failureCount := 0; Query.timer := None |}, [])).
  { intros s0 Hf. unfold Query.step. now rewrite Hf. }
  rewrite Hok by reflexivity.
  cbn [Hooks.useHealthCheck Query.enabled Query.refetchInterval
       Query.scheduleActions Query.nextTimer Query.data].
  rewrite !run_quiescent by reflexivity.
  repeat split.
Qed.

(** ** The status card *)

Definition tables : list (list ProcessingStatus.Message) :=
  [ ProcessingStatus.PROCESSING_MESSAGES.initializing;
    ProcessingStatus.PROCESSING_MESSAGES.pending;
    ProcessingStatus.PROCESSING_MESSAGES.processing;
    ProcessingStatus.PROCESSING_MESSAGES.finalizing ].

Lemma effect_table (p : ProcessingStatus.Props)
    (ms : list ProcessingStatus.Message) :
  ProcessingStatus.effect p = Some ms -> In ms tables.
Proof.
  unfold ProcessingStatus.effect, ProcessingStatus.effect_getMessagesForStatus.
  destruct (ProcessingStatus.jobStatus p) as [js|]; [|discriminate].
  destruct (ProcessingStatus.isLoading p), (status js);
    try discriminate; intros E; injection E as <-; cbn; auto.
  destruct (progress js >? 80); auto.
Qed.

Lemma table_length (ms : list ProcessingStatus.Message) :
  In ms tables -> (0 < List.length ms <= 6)%nat.
Proof.
  cbn. intros [<-|[<-|[<-|[<-|[]]]]]; cbn; lia.
Qed.

(** In every state the component reaches, the interval is the one the
    effect set for the current props, and the index is below 6. *)
Definition rotating (st : ProcessingStatus.State) : Prop :=
  ProcessingStatus.interval st
  = ProcessingStatus.effect (ProcessingStatus.props st) /\
  (ProcessingStatus.currentMessageIndex st < 6)%nat.

Lemma step_rotating (st : ProcessingStatus.State) (ev : ProcessingStatus.Event) :
  rotating st -> rotating (ProcessingStatus.step st ev).
Proof.
  intros [Hi Hb]. destruct ev as [p|]; cbn.
  - split; [reflexivity | exact Hb].
  - destruct (ProcessingStatus.interval st) as [ms|] eqn:E;
      [|split; [congruence | exact Hb]].
    split; [cbn; congruence|]. cbn.
    symmetry in Hi. apply effect_table, table_length in Hi.
    unfold ProcessingStatus.next_index.
    pose proof (Nat.mod_upper_bound
                  (ProcessingStatus.currentMessageIndex st + 1) (List.length ms)).
    lia.
Qed.

Lemma run_rotating (evs : list ProcessingStatus.Event) :
  forall st, rotating st -> rotating (ProcessingStatus.run st evs).
Proof.
  induction evs as [|ev evs IH]; intros st Hr; [exact Hr|].
  cbn. apply IH, step_rotating, Hr.
Qed.

Lemma mount_rotating (p : ProcessingStatus.Props) :
  rotating (ProcessingStatus.mount p).
Proof. split; [reflexivity | cbn; lia]. Qed.

(** X15: the message index of the status card.  Whatever props and ticks
    the card receives after mounting, a tick leaves the index a valid
    position of the table that is rotating, the index stays below 6, and
    once the job is completed or failed, or while no snapshot is known, a
    tick changes nothing. *)
Theorem rotation_stays_in_table (p : ProcessingStatus.Props)
    (evs : list ProcessingStatus.Event) :
  let st := ProcessingStatus.run (ProcessingStatus.mount p) evs in
  let st' := ProcessingStatus.step st ProcessingStatus.Tick in
  (ProcessingStatus.currentMessageIndex st < 6)%nat /\
  (forall ms, ProcessingStatus.interval st = Some ms ->
              exists m, nth_error ms (ProcessingStatus.currentMessageIndex st')
                        = Some m) /\
  (ProcessingStatus.jobStatus (ProcessingStatus.props st) = None -> st' = st) /\
  (forall js, ProcessingStatus.jobStatus (ProcessingStatus.props st) = Some js ->
              status js = completed \/ status js = failed -> st' = st).
Proof.
  intros st st'. subst st'.
  destruct (run_rotating evs _ (mount_rotating p)) as [Hi Hb]. fold st in Hi, Hb.
  split; [exact Hb|]. split; [|split].
  - intros ms Hms. cbn. rewrite Hms. cbn.
    rewrite Hms in Hi. symmetry in Hi. apply effect_table, table_length in Hi.
    destruct (nth_error ms _) as [m|] eqn:E; [now exists m|].
    apply nth_error_None in E. unfold ProcessingStatus.next_index in E.
    pose proof (Nat.mod_upper_bound
                  (ProcessingStatus.currentMessageIndex st + 1) (List.length ms)).
    lia.
  - intros Hn. cbn. rewrite Hi. unfold ProcessingStatus.effect. now rewrite Hn.
  - intros js Hjs Hterm. cbn. rewrite Hi. unfold ProcessingStatus.effect.
    rewrite Hjs. destruct Hterm as [-> | ->]; reflexivity.
Qed.

(** The spinner card is the one drawn while loading or without a
    snapshot. *)
Definition shows_loading (p : ProcessingStatus.Props) : Prop :=
  ProcessingStatus.isLoading p = true \/ ProcessingStatus.jobStatus p = None.

(** Props as the status query hands them over: loading only while there
    is no snapshot. *)
Definition coherent (p : ProcessingStatus.Props) : Prop :=
  ProcessingStatus.isLoading p = true -> ProcessingStatus.jobStatus p = None.

(** New props are coherent and do not take a snapshot away. *)
Definition admissible (st : ProcessingStatus.State)
    (ev : ProcessingStatus.Event) : Prop :=
  match ev with
  | ProcessingStatus.SetProps p =>
      coherent p /\
      (ProcessingStatus.jobStatus p = None ->
       ProcessingStatus.jobStatus (ProcessingStatus.props st) = None)
  | ProcessingStatus.Tick => True
  end.

Fixpoint admissible_run (st : ProcessingStatus.State)
    (evs : list ProcessingStatus.Event) : Prop :=
  match evs with
  | [] => True
  | ev :: rest =>
      admissible st ev /\ admissible_run (ProcessingStatus.step st ev) rest
  end.

Definition at_rest_while_loading (st : ProcessingStatus.State) : Prop :=
  rotating st /\
  coherent (ProcessingStatus.props st) /\
  (ProcessingStatus.jobStatus (ProcessingStatus.props st) = None ->
   ProcessingStatus.currentMessageIndex st = 0%nat).

Lemma step_at_rest (st : ProcessingStatus.State) (ev : ProcessingStatus.Event) :
  at_rest_while_loading st -> admissible st ev ->
  at_rest_while_loading (ProcessingStatus.step st ev).
Proof.
  intros (Hr & Hc & Hz) Ha.
  split; [now apply step_rotating|].
  destruct ev as [p|]; cbn in *.
  - destruct Ha as [Hp Hkeep]. split; [exact Hp|]. intros Hn. auto.
  - destruct Hr as [Hi _].
    destruct (ProcessingStatus.interval st) as [ms|] eqn:E; [|now split].
    cbn. split; [exact Hc|]. intros Hn. exfalso.
    unfold ProcessingStatus.effect in Hi. rewrite Hn in Hi. discriminate Hi.
Qed.

Lemma run_at_rest (evs : list ProcessingStatus.Event) :
  forall st,
    at_rest_while_loading st -> admissible_run st evs ->
    at_rest_while_loading (ProcessingStatus.run st evs).
Proof.
  induction evs as [|ev evs IH]; intros st Hs Ha; [exact Hs|].
  destruct Ha as [Ha Hrest]. cbn. apply IH; [|exact Hrest].
  now apply step_at_rest.
Qed.

(** X16: drawing the status card throws exactly when the spinner card is
    drawn with a message index of 4 or more (the initializing table has
    four messages).  With props as the status query supplies them
    (loading only while there is no snapshot, and a snapshot, once there,
    never taken away) this does not happen: the card is drawn after every
    sequence of props and ticks. *)
Theorem render_throws_only_past_the_table :
  (forall p index,
      ProcessingStatus.render p index = inr ProcessingStatus.TypeError <->
      shows_loading p /\ (4 <= index)%nat) /\
  (forall p evs,
      coherent p ->
      admissible_run (ProcessingStatus.mount p) evs ->
      let st := ProcessingStatus.run (ProcessingStatus.mount p) evs in
      exists view,
        ProcessingStatus.render (ProcessingStatus.props st)
          (ProcessingStatus.currentMessageIndex st) = inl view).
Proof.
  split.
  - intros p index. unfold ProcessingStatus.render, shows_loading.
    destruct (ProcessingStatus.isLoading p) eqn:El;
      [|destruct (ProcessingStatus.jobStatus p) as [js|] eqn:Ej].
    + destruct (nth_error _ index) as [m|] eqn:E.
      * split; [discriminate|]. intros [_ Hi].
        assert (nth_error ProcessingStatus.PROCESSING_MESSAGES.initializing index
                <> None) by congruence.
        apply nth_error_Some in H. cbn in H. lia.
      * apply nth_error_None in E. cbn in E. split; auto.
    + split; [discriminate|]. intros [[K|K] _]; discriminate K.
    + destruct (nth_error _ index) as [m|] eqn:E.
      * split; [discriminate|]. intros [_ Hi].
        assert (nth_error ProcessingStatus.PROCESSING_MESSAGES.initializing index
                <> None) by congruence.
        apply nth_error_Some in H. cbn in H. lia.
      * apply nth_error_None in E. cbn in E. split; auto.
  - intros p evs Hc Ha st.
    assert (H0 : at_rest_while_loading (ProcessingStatus.mount p)).
    { split; [apply mount_rotating|]. split; [exact Hc | reflexivity]. }
    destruct (run_at_rest evs _ H0 Ha) as (_ & Hcoh & Hz). fold st in Hcoh, Hz.
    unfold ProcessingStatus.render. unfold coherent in Hcoh.
    destruct (ProcessingStatus.isLoading (ProcessingStatus.props st)).
    + rewrite (Hz (Hcoh eq_refl)). eexists. reflexivity.
    + destruct (ProcessingStatus.jobStatus (ProcessingStatus.props st)) as [js|].
      * eexists. reflexivity.
      * rewrite (Hz eq_refl). eexists. reflexivity.
Qed.

Definition waiting_props : ProcessingStatus.Props :=
  {| ProcessingStatus.jobStatus := None; ProcessingStatus.isLoading := true;
     ProcessingStatus.downloadLoading := false |}.

Definition working_props : ProcessingStatus.Props :=
  {| ProcessingStatus.jobStatus := Some polling_snapshot;
     ProcessingStatus.isLoading := false;
     ProcessingStatus.downloadLoading := false |}.

Definition card_session : list ProcessingStatus.Event :=
  [ ProcessingStatus.Tick;
    ProcessingStatus.SetProps working_props;
    ProcessingStatus.Tick; ProcessingStatus.Tick; ProcessingStatus.Tick;
    ProcessingStatus.Tick; ProcessingStatus.Tick ].

Lemma card_session_admissible :
  admissible_run (ProcessingStatus.mount waiting_props) card_session.
Proof.
  cbn. repeat split; discriminate.
Defined.

Lemma render_throws_only_past_the_table_witness :
  exists view,
    ProcessingStatus.render
      (ProcessingStatus.props
         (ProcessingStatus.run (ProcessingStatus.mount waiting_props) card_session))
      (ProcessingStatus.currentMessageIndex
         (ProcessingStatus.run (ProcessingStatus.mount waiting_props) card_session))
    = inl view.
Proof.
  apply (proj2 render_throws_only_past_the_table waiting_props card_session).
  - intros _. reflexivity.
  - exact card_session_admissible.
Defined.

Example card_session_index :
  ProcessingStatus.currentMessageIndex
    (ProcessingStatus.run (ProcessingStatus.mount waiting_props) card_session)
  = 5%nat.
Proof. reflexivity. Qed.

Example spinner_past_the_table :
  ProcessingStatus.render waiting_props 5 = inr ProcessingStatus.TypeError.
Proof. reflexivity. Qed.

Lemma table_texts_nonempty :
  Forall (Forall (fun m => ProcessingStatus.text m <> EmptyString)) tables.
Proof. repeat constructor; discriminate. Qed.

Lemma getMessagesForStatus_table (js : JobStatusResponse) :
  In (ProcessingStatus.getMessagesForStatus js) tables.
Proof.
  unfold ProcessingStatus.getMessagesForStatus.
  destruct (status js); cbn; auto. destruct (progress js >? 80); auto.
Qed.

(** X17: the status card always has a title and a description.  For a
    pending or processing job the title is the message at the current
    index of the table in use and, when the index lies beyond that table,
    the fixed title of the status; a failed job shows its own error and,
    without one, the fixed description. *)
Theorem status_card_texts (js : JobStatusResponse) (index : nat) :
  let info := ProcessingStatus.getStatusInfo js index in
  ProcessingStatus.title info <> EmptyString /\
  ProcessingStatus.description info <> EmptyString /\
  (status js = pending \/ status js = processing ->
   match nth_error (ProcessingStatus.getMessagesForStatus js) index with
   | Some m => ProcessingStatus.title info = ProcessingStatus.text m
   | None =>
       (List.length (ProcessingStatus.getMessagesForStatus js) <= index)%nat /\
       ProcessingStatus.title info
       = match status js with
         | pending => "Queued for Processing"
         | _ => "Processing Document"
         end
   end) /\
  (status js = failed ->
   forall msg, error js = Some msg -> msg <> EmptyString ->
               ProcessingStatus.description info = msg).
Proof.
  cbn zeta.
  assert (Htext : forall m,
             nth_error (ProcessingStatus.getMessagesForStatus js) index = Some m ->
             ProcessingStatus.text m <> EmptyString).
  { intros m Hm. pose proof table_texts_nonempty as Hall.
    rewrite Forall_forall in Hall.
    specialize (Hall _ (getMessagesForStatus_table js)).
    rewrite Forall_forall in Hall. apply Hall. eapply nth_error_In, Hm. }
  unfold ProcessingStatus.getStatusInfo.
  destruct (status js) eqn:Es;
    cbn [ProcessingStatus.title ProcessingStatus.description].
  - destruct (nth_error _ index) as [m|] eqn:E; cbn [option_map].
    + rewrite (or_string_truthy _ _ (Htext m eq_refl)).
      repeat split; try discriminate. now apply Htext.
    + apply nth_error_None in E. cbn [JS.or_string].
      repeat split; try discriminate. exact E.
  - destruct (nth_error _ index) as [m|] eqn:E; cbn [option_map].
    + rewrite (or_string_truthy _ _ (Htext m eq_refl)).
      repeat split; try discriminate. now apply Htext.
    + apply nth_error_None in E. cbn [JS.or_string].
      repeat split; try discriminate. exact E.
  - repeat split; try discriminate. intros [K|K]; discriminate K.
  - repeat split; try discriminate.
    + apply or_string_nonempty. discriminate.
    + intros [K|K]; discriminate K.
    + intros _ msg -> Hne. now apply or_string_truthy.
Qed.

Lemma status_card_texts_witness :
  ProcessingStatus.title (ProcessingStatus.getStatusInfo polling_snapshot 9)
  = "Processing Document".
Proof.
  destruct (status_card_texts polling_snapshot 9) as (_ & _ & H & _).
  apply H. right. reflexivity.
Defined.

(** ** The analysis preview *)

Definition is_content (b : EntityDetectionPreview.Block) : bool :=
  match b with
  | EntityDetectionPreview.WillRedact _
  | EntityDetectionPreview.WillKeep _
  | EntityDetectionPreview.Unrecognized _ => true
  | EntityDetectionPreview.DefaultNotice
  | EntityDetectionPreview.ErrorMessage _ => false
  end.

Definition is_notice (b : EntityDetectionPreview.Block) : bool :=
  match b with
  | EntityDetectionPreview.DefaultNotice => true
  | _ => false
  end.

(** X18: the preview is hidden exactly when the prompt is blank or when
    there is neither an analysis nor a call in flight; a preview that is
    shown is never empty: it holds the placeholder while loading and the
    blocks of the analysis otherwise. *)
Theorem preview_visibility
    (analysis : option EntityDetectionPreview.AnalyzePromptResponse)
    (isLoading : bool) (prompt : string) :
  (EntityDetectionPreview.render analysis isLoading prompt = None <->
   JS.all_white prompt = true \/ (analysis = None /\ isLoading = false)) /\
  (forall panel,
      EntityDetectionPreview.render analysis isLoading prompt = Some panel ->
      EntityDetectionPreview.body panel
      = if isLoading then EntityDetectionPreview.Skeleton
        else match analysis with
             | Some a => EntityDetectionPreview.Blocks (EntityDetectionPreview.blocks a)
             | None => EntityDetectionPreview.Nothing
             end) /\
  (forall panel,
      EntityDetectionPreview.render analysis isLoading prompt = Some panel ->
      EntityDetectionPreview.body panel <> EntityDetectionPreview.Nothing).
Proof.
  unfold EntityDetectionPreview.render.
  pose proof (trim_empty_iff prompt) as Ht.
  destruct (truthy_spec (JS.trim prompt)) as [[-> Hne]|[-> He]]; cbn [negb orb].
  - assert (Hw : JS.all_white prompt <> true) by (rewrite <- Ht; exact Hne).
    destruct analysis as [a|], isLoading; cbn [andb negb].
    + repeat split; try discriminate.
      * intros [K|[K _]]; [contradiction | discriminate K].
      * intros panel E. injection E as <-. reflexivity.
      * intros panel E. injection E as <-. discriminate.
    + repeat split; try discriminate.
      * intros [K|[K _]]; [contradiction | discriminate K].
      * intros panel E. injection E as <-. reflexivity.
      * intros panel E. injection E as <-. discriminate.
    + repeat split; try discriminate.
      * intros [K|[_ K]]; [contradiction | discriminate K].
      * intros panel E. injection E as <-. reflexivity.
      * intros panel E. injection E as <-. discriminate.
    + repeat split; try discriminate. intros _. right. now split.
  - apply Ht in He. repeat split; try discriminate. intros _. now left.
Qed.

Lemma blocks_cases (a : EntityDetectionPreview.AnalyzePromptResponse) :
  existsb is_content (EntityDetectionPreview.blocks a)
  = negb (existsb is_notice (EntityDetectionPreview.blocks a)).
Proof.
  unfold EntityDetectionPreview.blocks, EntityDetectionPreview.nonempty.
  destruct (EntityDetectionPreview.entities_to_redact a) as [|r rs],
           (EntityDetectionPreview.entities_to_keep a) as [|k ks],
           (EntityDetectionPreview.unrecognized_terms a) as [[|u us]|],
           (EntityDetectionPreview.error a) as [msg|];
    cbn -[JS.truthy]; try destruct (JS.truthy msg); reflexivity.
Qed.

(** X19: the blocks drawn for an analysis.  There is always at least one
    block; the notice that everything detected will be redacted is drawn
    exactly when no list of entities or of unrecognized terms is drawn;
    and a list that is drawn is never an empty one. *)
Theorem preview_blocks (a : EntityDetectionPreview.AnalyzePromptResponse) :
  EntityDetectionPreview.blocks a <> [] /\
  (In EntityDetectionPreview.DefaultNotice (EntityDetectionPreview.blocks a) <->
   forall b, In b (EntityDetectionPreview.blocks a) -> is_content b = false) /\
  (In EntityDetectionPreview.DefaultNotice (EntityDetectionPreview.blocks a) <->
   EntityDetectionPreview.entities_to_redact a = [] /\
   EntityDetectionPreview.entities_to_keep a = [] /\
   (EntityDetectionPreview.unrecognized_terms a = None \/
    EntityDetectionPreview.unrecognized_terms a = Some [])) /\
  (forall l,
      In (EntityDetectionPreview.WillRedact l) (EntityDetectionPreview.blocks a) \/
      In (EntityDetectionPreview.WillKeep l) (EntityDetectionPreview.blocks a) \/
      In (EntityDetectionPreview.Unrecognized l) (EntityDetectionPreview.blocks a) ->
      l <> []).
Proof.
  pose proof (blocks_cases a) as Hc.
  assert (Hnotice : existsb is_notice (EntityDetectionPreview.blocks a) = true <->
                    In EntityDetectionPreview.DefaultNotice
                       (EntityDetectionPreview.blocks a)).
  { rewrite existsb_exists. split.
    - intros (b & Hb & Hn). destruct b; try discriminate Hn. exact Hb.
    - intros Hin. eexists. split; [exact Hin | reflexivity]. }
  split; [|split; [|split]].
  - intros E. rewrite E in Hc. discriminate Hc.
  - rewrite <- Hnotice. split.
    + intros Hn b Hb. rewrite Hn in Hc. cbn [negb] in Hc.
      destruct (is_content b) eqn:Eb; [|reflexivity].
      assert (existsb is_content (EntityDetectionPreview.blocks a) = true)
        by (apply existsb_exists; eauto).
      congruence.
    + intros Hall.
      destruct (existsb is_notice (EntityDetectionPreview.blocks a));
        [reflexivity|].
      cbn [negb] in Hc. apply existsb_exists in Hc. destruct Hc as (b & Hb & Eb).
      rewrite (Hall b Hb) in Eb. discriminate Eb.
  - unfold EntityDetectionPreview.blocks, EntityDetectionPreview.nonempty.
    destruct (EntityDetectionPreview.entities_to_redact a) as [|r rs],
             (EntityDetectionPreview.entities_to_keep a) as [|k ks],
             (EntityDetectionPreview.unrecognized_terms a) as [[|u us]|],
             (EntityDetectionPreview.error a) as [msg|];
      cbn -[JS.truthy]; try destruct (JS.truthy msg); cbn;
      split; intros K; try (exfalso; intuition discriminate);
      intuition (auto; discriminate).
  - unfold EntityDetectionPreview.blocks, EntityDetectionPreview.nonempty.
    intros l.
    destruct (EntityDetectionPreview.entities_to_redact a) as [|r rs],
             (EntityDetectionPreview.entities_to_keep a) as [|k ks],
             (EntityDetectionPreview.unrecognized_terms a) as [[|u us]|],
             (EntityDetectionPreview.error a) as [msg|];
      cbn -[JS.truthy]; try destruct (JS.truthy msg); cbn;
      intros K E; subst l; intuition discriminate.
Qed.

(** ** Labels of entity tags *)

Definition is_upper (c : ascii) : bool :=
  let n := nat_of_ascii c in ((65 <=? n) && (n <=? 90))%nat.

Fixpoint count_unit (c : ascii) (s : string) : nat :=
  match s with
  | EmptyString => 0
  | String d r => ((if Ascii.eqb d c then 1 else 0) + count_unit c r)%nat
  end.

Fixpoint no_upper (s : string) : bool :=
  match s with
  | EmptyString => true
  | String c r => negb (is_upper c) && no_upper r
  end.

Lemma lower_unit_underscore (c : ascii) :
  Ascii.eqb (JS.lower_unit c) "_" = Ascii.eqb c "_".
Proof. destruct c as [[] [] [] [] [] [] [] []]; reflexivity. Qed.

Lemma lower_unit_not_upper (c : ascii) : is_upper (JS.lower_unit c) = false.
Proof. destruct c as [[] [] [] [] [] [] [] []]; reflexivity. Qed.

Lemma toLowerCase_facts (s : string) :
  String.length (JS.toLowerCase s) = String.length s /\
  count_unit "_" (JS.toLowerCase s) = count_unit "_" s /\
  no_upper (JS.toLowerCase s) = true.
Proof.
  induction s as [|c r (IH1 & IH2 & IH3)]; [repeat split|].
  cbn [JS.toLowerCase String.length count_unit no_upper].
  rewrite IH1, IH2, IH3, lower_unit_underscore, lower_unit_not_upper.
  repeat split.
Qed.

Lemma replace_underscore (s : string) :
  JS.replace "_" " " s
  = match s with
    | EmptyString => EmptyString
    | String c r =>
        if Ascii.eqb c "_" then String " " r
        else String c (JS.replace "_" " " r)
    end.
Proof.
  destruct s as [|c r]; [reflexivity|].
  cbn [JS.replace String.prefix String.length JS.drop].
  destruct (Ascii.eqb_spec c "_") as [->|Hne].
  - destruct (ascii_dec "_" "_"); [|contradiction]. destruct r; reflexivity.
  - destruct (ascii_dec "_" c) as [E|_]; [now contradiction Hne|].
    reflexivity.
Qed.

Lemma replace_underscore_facts (s : string) :
  String.length (JS.replace "_" " " s) = String.length s /\
  count_unit "_" (JS.replace "_" " " s) = Nat.pred (count_unit "_" s) /\
  (no_upper s = true -> no_upper (JS.replace "_" " " s) = true) /\
  (count_unit "_" s = 0%nat -> JS.replace "_" " " s = s).
Proof.
  induction s as [|c r (IH1 & IH2 & IH3 & IH4)];
    [repeat split|].
  rewrite replace_underscore.
  destruct (Ascii.eqb_spec c "_") as [->|Hne].
  - cbn. repeat split; auto; try discriminate.
  - cbn [String.length count_unit no_upper].
    destruct (Ascii.eqb_spec c "_") as [E|_]; [contradiction|].
    rewrite IH1, IH2. cbn [Nat.add]. repeat split.
    + intros Hu. apply andb_true_iff in Hu. destruct Hu as [-> Hu].
      now rewrite IH3.
    + intros Hz. now rewrite IH4.
Qed.

(** X20: the label drawn for an entity tag is the tag in lower case with
    its first underscore, and only the first, turned into a space: the
    label is as long as the tag, holds no capital letter A to Z, and holds
    one underscore less than a tag that has one; a tag without an
    underscore is just lowered. *)
Theorem entity_label_replaces_first_underscore (entity : string) :
  String.length (EntityDetectionPreview.label entity) = String.length entity /\
  no_upper (EntityDetectionPreview.label entity) = true /\
  count_unit "_" (EntityDetectionPreview.label entity)
  = Nat.pred (count_unit "_" entity) /\
  (count_unit "_" entity = 0%nat ->
   EntityDetectionPreview.label entity = JS.toLowerCase entity) /\
  EntityDetectionPreview.label "CREDIT_CARD_NUMBER" = "credit card_number".
Proof.
  unfold EntityDetectionPreview.label.
  destruct (toLowerCase_facts entity) as (L1 & L2 & L3).
  destruct (replace_underscore_facts (JS.toLowerCase entity))
    as (R1 & R2 & R3 & R4).
  rewrite R1, R2, L1, L2. repeat split.
  - now apply R3.
  - intros Hz. apply R4. now rewrite L2.
Qed.

(** ** Fields of the submission form *)

(** X21: no field of the submission form is sent twice, whatever the
    request: the names are pairwise distinct, the file comes first, and
    there are at most three fields. *)
Theorem form_fields_unique (request : RedactionRequest) :
  let names := map fst (Api.processDocument_form request) in
  NoDup names /\
  hd_error names = Some "file" /\
  (1 <= List.length names <= 3)%nat /\
  (forall n, In n names -> In n ["file"; "prompt"; "preview_only"]).
Proof.
  destruct request as [f pr pv]. cbn zeta.
  unfold Api.processDocument_form, Api.append;
    cbn [req_file req_prompt req_preview_only app].
  destruct pr as [p|]; [destruct (JS.truthy p)|]; destruct pv as [b|];
    cbn [app map fst List.length hd_error].
  all: repeat split; try lia.
  all: try (repeat constructor; cbn; intuition discriminate).
  all: intros n Hn; cbn in Hn |- *; intuition.
Qed.
